(** * RustOCR: the EasyOCR server's model cache, request handlers and statistics

    A shallow embedding of [easyocr_server_enhanced.py] (the plain
    [easyocr_server.py] shares [get_model_key], [get_or_create_model],
    [perform_ocr] and [warmup_model] verbatim) and of the result shaping of
    [easyocr_bridge.py].

    Conventions of the embedding:
    - a Python [str] is a [string]; [sorted] compares strings by code point,
      which on the UTF-8 bytes of a [string] is the byte-wise order
      [String.le];
    - a finite Python [float] is the rational [Qc] it denotes, and float
      arithmetic rounds every result to the nearest double ([to_double]);
      the counters are unbounded Python integers, here [Z];
    - the module-level dictionaries [MODEL_CACHE] and [STATS] are the fields
      of an explicit [world] threaded through every handler;
    - what a handler reads from outside the program is explicit: the clock
      and [uuid4] are the [readings] it is given, the recognition engine and
      the image decoder are the fields of the class [Env]. *)

From Stdlib Require Import QArith Qcanon Qround Lqa Ascii.
From stdpp Require Import base numbers list sorting strings gmap.

Local Open Scope Z_scope.
Local Open Scope string_scope.

(** ** Exceptions and the handler monad *)

(** The three classes of exception the handlers tell apart: FastAPI's
    [HTTPException], any other subclass of [Exception], and what
    [except Exception] does not catch ([CancelledError], [KeyboardInterrupt]). *)
Inductive exn : Type :=
| HTTPException (status_code : Z) (detail : string)
| Exception (msg : string)
| BaseException (msg : string).

Inductive result (A : Type) : Type :=
| Ok (a : A)
| Raise (e : exn).
Arguments Ok {A} a.
Arguments Raise {A} e.

Global Instance result_ret : MRet result := λ A a, Ok a.
Global Instance result_bind : MBind result := λ A B k r,
  match r with
  | Ok a => k a
  | Raise e => Raise e
  end.

Global Instance result_fmap : FMap result := λ A B f r,
  match r with
  | Ok a => Ok (f a)
  | Raise e => Raise e
  end.

Definition is_Exception (e : exn) : bool :=
  match e with BaseException _ => false | _ => true end.

(** ** ModelKey *)

(** [sorted(languages)]: a stable merge sort under the code-point order. *)
Definition sorted (l : list string) : list string := merge_sort String.le l.

(** [",".join(sorted(languages))] *)
Definition get_model_key (languages : list string) : string :=
  String.concat "," (sorted languages).

(** ** The shared state *)

(** An [easyocr.Reader] object. Its identity is the ordinal of the
    constructor call that made it; it remembers the arguments it was built
    with. *)
Record Reader : Type := mkReader {
  reader_id : nat;
  reader_languages : list string;
  reader_gpu : bool
}.

(** A value of [MODEL_CACHE]: the dict literal of [get_or_create_model]. *)
Record cache_entry : Type := mkEntry {
  reader : Reader;
  languages : list string;
  loaded_at : Qc;
  gpu_enabled : bool
}.

(** The [STATS] dict; its four keys are fixed, so it is a record. *)
Record stats : Type := mkStats {
  total_requests : Z;
  successful_requests : Z;
  failed_requests : Z;
  processing_times : list Qc
}.

(** The process-wide state. [builds] is not a variable of the program: it
    logs, oldest first, the arguments of every [easyocr.Reader(...)]
    constructor call made so far, so that builder invocations can be
    counted. *)
Record world : Type := mkWorld {
  MODEL_CACHE : gmap string cache_entry;
  STATS : stats;
  builds : list (list string * bool)
}.

Definition initial_stats : stats :=
  {| total_requests := 0; successful_requests := 0; failed_requests := 0;
     processing_times := [] |}.

(** The state right after the module is imported. *)
Definition initial_world : world :=
  {| MODEL_CACHE := ∅; STATS := initial_stats; builds := [] |}.

Definition set_cache (f : gmap string cache_entry → gmap string cache_entry)
    (w : world) : world :=
  {| MODEL_CACHE := f (MODEL_CACHE w); STATS := STATS w; builds := builds w |}.

Definition set_stats (f : stats → stats) (w : world) : world :=
  {| MODEL_CACHE := MODEL_CACHE w; STATS := f (STATS w); builds := builds w |}.

Definition log_build (languages : list string) (gpu : bool) (w : world) : world :=
  {| MODEL_CACHE := MODEL_CACHE w; STATS := STATS w;
     builds := builds w ++ [(languages, gpu)] |}.

(** A handler is a state transformer that returns a value or raises; what it
    wrote before raising stays written. *)
Definition M (A : Type) : Type := world → result A * world.

Global Instance M_ret : MRet M := λ A a w, (Ok a, w).
Global Instance M_bind : MBind M := λ A B k c w,
  match c w with
  | (Ok a, w') => k a w'
  | (Raise e, w') => (Raise e, w')
  end.

Global Instance M_fmap : FMap M := λ A B f c w,
  match c w with
  | (Ok a, w') => (Ok (f a), w')
  | (Raise e, w') => (Raise e, w')
  end.

Definition raise {A} (e : exn) : M A := λ w, (Raise e, w).
Definition lift {A} (r : result A) : M A := λ w, (r, w).
Definition get_world : M world := λ w, (Ok w, w).
Definition modify (f : world → world) : M unit := λ w, (Ok (), f w).

(** [try: body except Exception as e: handler(e)]: a [BaseException] that is
    not an [Exception] passes through. *)
Definition try_except {A} (body : M A) (handler : exn → M A) : M A := λ w,
  match body w with
  | (Ok a, w') => (Ok a, w')
  | (Raise e, w') => if is_Exception e then handler e w' else (Raise e, w')
  end.

(** ** Recognition results *)

(** One element of what [reader.readtext] returns: a bare string (what the
    engine yields for [detail=0]) or a [(bbox, text, confidence)] tuple. A
    corner of [bbox] is a sequence of coordinates; the engine is expected to
    give two per corner, the code unpacks exactly two. *)
Inductive raw_item : Type :=
| RawText (text : string)
| RawSpan (bbox : list (list Qc)) (text : string) (confidence : Qc).

(** [OcrResult]: [bbox] defaults to the empty list and [confidence] to 0.0. *)
Record OcrResult : Type := mkOcrResult {
  bbox : list (list Z);
  text : string;
  confidence : Qc
}.

(** ** Python floats *)

(** A finite [float] is the rational number it denotes. Every arithmetic
    operation of the code gives the double nearest to the exact result, ties
    to the even mantissa; the largest double is never reached by a counter or
    a latency, and overflow is not modelled. *)

(** The integer nearest to [q], ties to the even one. *)
Definition round_half_even (q : Qc) : Z :=
  let f := Qfloor q in
  match ((q - Qc_of_Z f) ?= Q2Qc (1 # 2))%Qc with
  | Lt => f
  | Gt => f + 1
  | Eq => if Z.even f then f else f + 1
  end.

(** [q * 2^e] *)
Definition shift (q : Qc) (e : Z) : Qc :=
  if decide (0 ≤ e)%Z then (q * Qc_of_Z (2 ^ e))%Qc
  else (q / Qc_of_Z (2 ^ (- e)))%Qc.

(** For a positive [q], the [e] with [2^e ≤ q < 2^(e+1)]. *)
Definition floor_log2 (q : Qc) : Z :=
  let n := Qnum q in
  let d := Zpos (Qden q) in
  let e := Z.log2 n - Z.log2 d in
  if decide (n * 2 ^ Z.max 0 (- e) < d * 2 ^ Z.max 0 e)%Z then e - 1 else e.

(** The double nearest to [q]: 53 bits of mantissa, with the exponent of the
    last bit no lower than -1074. *)
Definition to_double (q : Qc) : Qc :=
  if decide (q = 0%Qc) then 0%Qc
  else
    let a := if decide (0 < q)%Qc then q else (- q)%Qc in
    let e := Z.max (floor_log2 a - 52) (-1074) in
    let r := shift (Qc_of_Z (round_half_even (shift a (- e)))) e in
    if decide (0 < q)%Qc then r else (- r)%Qc.

(** [x + y], [x - y], [x * y] and [x / y] on floats *)
Definition float_add (x y : Qc) : Qc := to_double (x + y)%Qc.
Definition float_sub (x y : Qc) : Qc := to_double (x - y)%Qc.
Definition float_mul (x y : Qc) : Qc := to_double (x * y)%Qc.
Definition float_div (x y : Qc) : Qc := to_double (x / y)%Qc.

(** [a / b] on integers: the double nearest to the quotient. *)
Definition int_truediv (a b : Z) : Qc := to_double (Qc_of_Z a / Qc_of_Z b)%Qc.

(** [round(x, 2)]: the exact value of [x] rounded to the nearest hundredth,
    ties to even, and the double nearest to that. *)
Definition py_round2 (x : Qc) : Qc :=
  to_double (Qc_of_Z (round_half_even (x * Qc_of_Z 100)) / Qc_of_Z 100)%Qc.

(** [sum(xs)] as a left fold of float additions from 0, which is what the
    builtin does up to Python 3.11. *)
Definition py_sum (xs : list Qc) : Qc := foldl float_add 0%Qc xs.

(** ** The environment: what the program calls but does not define *)

Class Env : Type := {
  (** a decoded [PIL.Image] *)
  image : Type;
  (** [easyocr.Reader(languages, gpu=gpu, verbose=False)], as the [n]-th
      constructor call of the process: [Some e] when it raises [e]. *)
  Reader_init : list string → bool → nat → option exn;
  (** [Image.open(io.BytesIO(base64.b64decode(s)))] *)
  image_open : string → result image;
  (** [reader.readtext(image, detail=detail)] *)
  readtext : Reader → image → Z → result (list raw_item);
  (** [str(e)] for an [HTTPException] (defined by the framework) *)
  str_HTTPException : Z → string → string;
  (** [import torch], then [torch.cuda.is_available()] when [torch] has the
      attribute [cuda] *)
  torch_cuda : result (option bool);
  (** [START_TIME] *)
  START_TIME : Qc;
  (** [sum] on a list of floats. The builtin is a left fold of float
      additions up to Python 3.11 and a compensated sum from 3.12 on; the
      interpreter in use says which. *)
  float_sum : list Qc → Qc
}.

(** ** The pydantic models *)

Module OcrRequest.
(** [detail] is declared [Field(default=1, ge=0, le=1)]. *)
Record t : Type := mk {
  image : string;
  languages : list string;
  detail : Z;
  gpu : bool
}.
Definition valid (r : t) : Prop := (0 ≤ detail r ≤ 1)%Z.
End OcrRequest.

Module OcrResponse.
Record t : Type := mk {
  status : string;
  request_id : string;
  results : list OcrResult;
  processing_time_ms : Qc;
  model_load_time_ms : Qc;
  timestamp : string
}.
End OcrResponse.

Module HealthResponse.
Record t : Type := mk {
  status : string;
  models_loaded : list string;
  uptime_seconds : Qc
}.
End HealthResponse.

Module ServerInfoResponse.
Record t : Type := mk {
  name : string;
  version : string;
  description : string;
  supported_languages : Z;
  gpu_available : bool;
  uptime_seconds : Qc;
  endpoints : list (string * string)
}.
End ServerInfoResponse.

Module ServerStatsResponse.
Record t : Type := mk {
  total_requests : Z;
  successful_requests : Z;
  failed_requests : Z;
  success_rate : Qc;
  average_processing_time_ms : Qc;
  loaded_models : list string;
  uptime_seconds : Qc
}.
End ServerStatsResponse.

Module ModelInfo.
Record t : Type := mk {
  languages : list string;
  loaded_at : Qc;
  gpu_enabled : bool
}.
End ModelInfo.

(** What one request reads from the clock and from [uuid4]. Real time is not
    modelled: the differences of [time.time()] readings that the code
    computes are given. *)
Record readings : Type := mkReadings {
  uuid : string;            (* str(uuid.uuid4()) in the endpoint *)
  now : Qc;                 (* time.time(), in seconds *)
  model_load_time : Qc;     (* (time.time() - model_start) * 1000 *)
  total_time : Qc;          (* (time.time() - start_time) * 1000 in perform_ocr *)
  process_time : Qc;        (* (time.time() - start_time) * 1000 in track_requests *)
  isoformat : string        (* datetime.now().isoformat() *)
}.

Section embedding.
Context `{E : Env}.

(** [str(e)] *)
Definition str (e : exn) : string :=
  match e with
  | HTTPException s d => str_HTTPException s d
  | Exception msg => msg
  | BaseException msg => msg
  end.

(** ** ModelCache *)

(** [reader = easyocr.Reader(languages, gpu=gpu, verbose=False)] *)
Definition new_Reader (languages : list string) (gpu : bool) : M Reader := λ w,
  let n := length (builds w) in
  match Reader_init languages gpu n with
  | Some e => (Raise e, log_build languages gpu w)
  | None => (Ok (mkReader n languages gpu), log_build languages gpu w)
  end.

(** [MODEL_CACHE[model_key]['reader']]; a missing key is a [KeyError]. *)
Definition cache_reader (model_key : string) : M Reader := λ w,
  match MODEL_CACHE w !! model_key with
  | Some e => (Ok (reader e), w)
  | None => (Raise (Exception model_key), w)
  end.

Definition get_or_create_model (languages : list string) (gpu : bool)
    (now : Qc) : M Reader :=
  let model_key := get_model_key languages in
  w ← get_world;
  (if decide (MODEL_CACHE w !! model_key = None) then
     try_except
       (reader ← new_Reader languages gpu;
        modify (set_cache <[model_key :=
          {| reader := reader; languages := languages;
             loaded_at := now; gpu_enabled := gpu |}]>))
       (λ e, raise (HTTPException 500 ("Failed to load model: " ++ str e)))
   else mret ());;
  cache_reader model_key.

(** What [get_or_create_model] raises when the constructor raised [e]: the
    [except Exception] clause wraps it, anything else passes through. *)
Definition build_error (e : exn) : exn :=
  if is_Exception e then HTTPException 500 ("Failed to load model: " ++ str e)
  else e.

(** Callers of [get_or_create_model], each with its language list, its
    accelerator preference and its clock reading. The function is a plain
    [def] and holds no [await]: on the event loop a call runs to its end
    before the next caller starts, so callers that arrive together are
    served one after the other. *)
Fixpoint get_or_create_each (callers : list (list string * bool * Qc))
    (w : world) : list (result Reader) * world :=
  match callers with
  | [] => ([], w)
  | (languages, gpu, now) :: callers =>
      let '(r, w1) := get_or_create_model languages gpu now w in
      let '(rs, w2) := get_or_create_each callers w1 in
      (r :: rs, w2)
  end.

(** [lifespan], after the [yield]: [MODEL_CACHE.clear()] *)
Definition shutdown : M unit := modify (set_cache (λ _, ∅)).

(** ** Shaping the recognition results *)

(** [int(x)] on a float: truncation toward zero. *)
Definition py_int (x : Qc) : Z := Z.quot (Qnum x) (Zpos (Qden x)).

(** [[int(x), int(y)] for x, y in bbox]: every corner must unpack into
    exactly two coordinates. *)
Definition corner (p : list Qc) : result (list Z) :=
  match p with
  | [x; y] => Ok [py_int x; py_int y]
  | _ => Raise (Exception "ValueError: cannot unpack corner into (x, y)")
  end.

(** [OcrResult(text=text)]: pydantic rejects a [text] that is not a [str]. *)
Definition simple_result (item : raw_item) : result OcrResult :=
  match item with
  | RawText t => Ok {| bbox := []; text := t; confidence := 0 |}
  | RawSpan _ _ _ => Raise (Exception "ValidationError: text is not a string")
  end.

(** One turn of [for bbox, text, confidence in results]. A bare string does
    not give a box: unpacked into three characters, its first character has
    no two coordinates. *)
Definition detailed_result (item : raw_item) : result OcrResult :=
  match item with
  | RawSpan b t c =>
      b' ← mapM corner b;
      Ok {| bbox := b'; text := t; confidence := c |}
  | RawText _ => Raise (Exception "ValueError: cannot unpack (bbox, text, confidence)")
  end.

(** The [# Parse results] block of [perform_ocr]. *)
Definition parse_results (detail : Z) (results : list raw_item)
    : result (list OcrResult) :=
  if decide (detail = 0) then mapM simple_result results
  else mapM detailed_result results.

(** ** The endpoints *)

Definition perform_ocr (request : OcrRequest.t) (rd : readings)
    : M OcrResponse.t :=
  let request_id := uuid rd in
  try_except
    (image ← try_except (lift (image_open (OcrRequest.image request)))
               (λ e, raise (HTTPException 400 ("Invalid image data: " ++ str e)));
     reader ← get_or_create_model (OcrRequest.languages request)
                (OcrRequest.gpu request) (now rd);
     let model_load_time := model_load_time rd in
     results ← lift (readtext reader image (OcrRequest.detail request));
     ocr_results ← lift (parse_results (OcrRequest.detail request) results);
     let total_time := total_time rd in
     mret {| OcrResponse.status := "success";
             OcrResponse.request_id := request_id;
             OcrResponse.results := ocr_results;
             OcrResponse.processing_time_ms := total_time;
             OcrResponse.model_load_time_ms := model_load_time;
             OcrResponse.timestamp := isoformat rd |})
    (λ e, match e with
          | HTTPException _ _ => raise e
          | _ => raise (HTTPException 500 (str e))
          end).

Definition warmup_model (languages : list string) (gpu : bool) (rd : readings)
    : M (string * list string) :=
  try_except
    (get_or_create_model languages gpu (now rd);;
     mret ("success", languages))
    (λ e, raise (HTTPException 500 (str e))).

(** A Python dict iterates in insertion order. An entry is inserted by the
    constructor call that made its reader, and the readers are numbered by
    their calls: the entries in insertion order are the entries by reader
    number. *)
Definition inserted_before (a b : string * cache_entry) : Prop :=
  (reader_id (reader a.2) ≤ reader_id (reader b.2))%nat.

Global Instance inserted_before_dec a b : Decision (inserted_before a b).
Proof. unfold inserted_before. apply _. Defined.

(** [MODEL_CACHE.items()] *)
Definition cache_items (w : world) : list (string * cache_entry) :=
  merge_sort inserted_before (map_to_list (MODEL_CACHE w)).

(** [list(MODEL_CACHE.keys())] *)
Definition cache_keys (w : world) : list string := (cache_items w).*1.

Definition health_check (rd : readings) : M HealthResponse.t :=
  w ← get_world;
  let uptime := float_sub (now rd) START_TIME in
  mret {| HealthResponse.status := "healthy";
          HealthResponse.models_loaded := cache_keys w;
          HealthResponse.uptime_seconds := uptime |}.

Definition list_models : M (list (string * ModelInfo.t) * Z) :=
  w ← get_world;
  let models :=
    prod_map id (λ value, {| ModelInfo.languages := languages value;
                             ModelInfo.loaded_at := loaded_at value;
                             ModelInfo.gpu_enabled := gpu_enabled value |})
      <$> cache_items w in
  mret (models, Z.of_nat (length models)).

(** The dict of [root]: its four strings, and the dict under [endpoints]. *)
Definition root : M (list (string * string) * list (string * string)) :=
  mret ([("name", "EasyOCR2 API Server"); ("version", "1.0.0");
         ("status", "running"); ("docs", "/docs")],
        [("ocr", "/api/v1/ocr"); ("health", "/api/v1/health");
         ("info", "/api/v1/info"); ("stats", "/api/v1/stats");
         ("models", "/api/v1/models")]).

Definition get_server_info (rd : readings) : M ServerInfoResponse.t :=
  cuda ← lift torch_cuda;
  let uptime := float_sub (now rd) START_TIME in
  mret {| ServerInfoResponse.name := "EasyOCR2 API Server";
          ServerInfoResponse.version := "1.0.0";
          ServerInfoResponse.description :=
            "High-performance OCR API with 80+ language support";
          ServerInfoResponse.supported_languages := 80;
          ServerInfoResponse.gpu_available := default false cuda;
          ServerInfoResponse.uptime_seconds := uptime;
          ServerInfoResponse.endpoints :=
            [("docs", "/docs"); ("ocr", "/api/v1/ocr");
             ("health", "/api/v1/health"); ("info", "/api/v1/info");
             ("stats", "/api/v1/stats"); ("models", "/api/v1/models");
             ("warmup", "/api/v1/models/warmup")] |}.

(** ** StatsTracker *)

(** The capacity of the latency window: the literal of [track_requests]. *)
Definition WINDOW : nat := 1000.

(** The [finally] block of [track_requests]. *)
Definition record_request (process_time : Qc) (s : stats) : stats :=
  let times := (processing_times s ++ [process_time])%list in
  {| total_requests := total_requests s + 1;
     successful_requests := successful_requests s;
     failed_requests := failed_requests s;
     processing_times :=
       if decide (WINDOW < length times)%nat then tail times else times |}.

Definition count_success (s : stats) : stats :=
  {| total_requests := total_requests s;
     successful_requests := successful_requests s + 1;
     failed_requests := failed_requests s;
     processing_times := processing_times s |}.

Definition count_failure (s : stats) : stats :=
  {| total_requests := total_requests s;
     successful_requests := successful_requests s;
     failed_requests := failed_requests s + 1;
     processing_times := processing_times s |}.

(** The [http] middleware. [call_next] is the rest of the application, run on
    the request; a response is counted as a success whatever its status. *)
Definition track_requests {A} (call_next : M A) (process_time : Qc) : M A := λ w,
  let '(r, w1) := call_next w in
  let w2 :=
    match r with
    | Ok _ => set_stats count_success w1
    | Raise e => if is_Exception e then set_stats count_failure w1 else w1
    end in
  (r, set_stats (record_request process_time) w2).

Definition get_server_stats (rd : readings) : M ServerStatsResponse.t :=
  w ← get_world;
  let times := processing_times (STATS w) in
  let avg_time :=
    if decide (times = []) then 0%Qc
    else float_div (float_sum times) (Qc_of_Z (Z.of_nat (length times))) in
  let total := total_requests (STATS w) in
  let success_rate :=
    if decide (0 < total) then
      float_mul (int_truediv (successful_requests (STATS w)) total)
        (Qc_of_Z 100)
    else 0%Qc in
  let uptime := float_sub (now rd) START_TIME in
  mret {| ServerStatsResponse.total_requests := total_requests (STATS w);
          ServerStatsResponse.successful_requests := successful_requests (STATS w);
          ServerStatsResponse.failed_requests := failed_requests (STATS w);
          ServerStatsResponse.success_rate := py_round2 success_rate;
          ServerStatsResponse.average_processing_time_ms := py_round2 avg_time;
          ServerStatsResponse.loaded_models := cache_keys w;
          ServerStatsResponse.uptime_seconds := py_round2 uptime |}.

(** ** The application *)

Inductive request : Type :=
| GET_root
| GET_health
| GET_info
| GET_stats
| GET_models
| POST_ocr (r : OcrRequest.t)
| POST_warmup (languages : list string) (gpu : bool).

Inductive body : Type :=
| RootBody (d : list (string * string)) (endpoints : list (string * string))
| HealthBody (h : HealthResponse.t)
| InfoBody (i : ServerInfoResponse.t)
| StatsBody (s : ServerStatsResponse.t)
| ModelsBody (models : list (string * ModelInfo.t)) (count : Z)
| OcrBody (r : OcrResponse.t)
| WarmupBody (status : string) (languages : list string)
| ErrorBody (detail : string).

Record response : Type := mkResponse {
  status_code : Z;
  content : body
}.

(** The route table. *)
Definition endpoint (req : request) (rd : readings) : M body :=
  match req with
  | GET_root => '(d, endpoints) ← root; mret (RootBody d endpoints)
  | GET_health => HealthBody <$> health_check rd
  | GET_info => InfoBody <$> get_server_info rd
  | GET_stats => StatsBody <$> get_server_stats rd
  | GET_models => '(models, count) ← list_models; mret (ModelsBody models count)
  | POST_ocr r => OcrBody <$> perform_ocr r rd
  | POST_warmup languages gpu =>
      '(status, languages) ← warmup_model languages gpu rd;
      mret (WarmupBody status languages)
  end.

(** What the middleware's [call_next] runs. FastAPI checks the body against
    its pydantic model and answers 422 without calling the endpoint when the
    check fails; its exception handlers sit inside the [http] middlewares and
    answer an [HTTPException] raised by the endpoint with a response of that
    status. Any other exception reaches the middleware. *)
Definition call_next (req : request) (rd : readings) : M response := λ w,
  match req with
  | POST_ocr r =>
      if decide (OcrRequest.valid r) then
        match endpoint req rd w with
        | (Ok b, w') => (Ok (mkResponse 200 b), w')
        | (Raise (HTTPException s d), w') => (Ok (mkResponse s (ErrorBody d)), w')
        | (Raise e, w') => (Raise e, w')
        end
      else (Ok (mkResponse 422 (ErrorBody "detail out of range")), w)
  | _ =>
      match endpoint req rd w with
      | (Ok b, w') => (Ok (mkResponse 200 b), w')
      | (Raise (HTTPException s d), w') => (Ok (mkResponse s (ErrorBody d)), w')
      | (Raise e, w') => (Raise e, w')
      end
  end.

(** One HTTP request through the middleware. *)
Definition handle (req : request) (rd : readings) : M response :=
  track_requests (call_next req rd) (process_time rd).

(** The server working off a queue of requests, one after the other. *)
Fixpoint serve (reqs : list (request * readings)) (w : world) : world :=
  match reqs with
  | [] => w
  | (req, rd) :: reqs => serve reqs (handle req rd w).2
  end.

End embedding.

(** ** The command-line bridge: the JSON document it prints *)

Local Set Warnings "-register-all".
Inductive json : Type :=
| JString (s : string)
| JInt (z : Z)
| JFloat (q : Qc)
| JArray (l : list json)
| JObject (fields : list (string * json)).

Definition json_of_raw (item : raw_item) : json :=
  match item with
  | RawText t => JString t
  | RawSpan b t c => JArray [JArray (JArray ∘ fmap JFloat <$> b); JString t; JFloat c]
  end.

Definition bridge_corner (p : list Qc) : result json :=
  match p with
  | [x; y] => Ok (JArray [JInt (py_int x); JInt (py_int y)])
  | _ => Raise (Exception "ValueError: cannot unpack corner into (x, y)")
  end.

Definition bridge_detailed (item : raw_item) : result json :=
  match item with
  | RawSpan b t c =>
      b' ← mapM bridge_corner b;
      Ok (JObject [("bbox", JArray b'); ("text", JString t); ("confidence", JFloat c)])
  | RawText _ => Raise (Exception "ValueError: cannot unpack (bbox, text, confidence)")
  end.

(** [output] in [main] of the bridge, lines 32 to 44. *)
Definition bridge_output (detail : Z) (results : list raw_item) : result json :=
  if decide (detail = 0) then
    Ok (JArray ((λ text, JObject [("text", json_of_raw text)]) <$> results))
  else JArray <$> mapM bridge_detailed results.

(** ** Stub environments, to run the handlers on *)

Definition HI_box : list (list Qc) :=
  [[Qc_of_Z 0; Qc_of_Z 0]; [Qc_of_Z 10; Qc_of_Z 0];
   [Qc_of_Z 10; Qc_of_Z 10]; [Qc_of_Z 0; Qc_of_Z 10]].

(** An engine that knows every language but ["xx"], cannot open the payload
    ["not-an-image"], cannot read the image ["unreadable"], and finds the one
    span [HI] in every other image. *)
Definition stub : Env :=
  {| image := string;
     Reader_init := λ languages _ _,
       if decide ("xx" ∈ languages) then Some (Exception "unsupported language")
       else None;
     image_open := λ s,
       if decide (s = "not-an-image") then Raise (Exception "cannot identify image file")
       else Ok s;
     readtext := λ _ img detail,
       if decide (img = "unreadable") then Raise (Exception "recognition failed")
       else if decide (detail = 0) then Ok [RawText "HI"]
       else Ok [RawSpan HI_box "HI" (Q2Qc (95 # 100))];
     str_HTTPException := λ _ d, d;
     torch_cuda := Ok (Some true);
     START_TIME := Qc_of_Z 0;
     float_sum := py_sum |}.

(** The same engine on a machine where [import torch] fails. *)
Definition stub_no_torch : Env :=
  {| image := string;
     Reader_init := @Reader_init stub;
     image_open := @image_open stub;
     readtext := @readtext stub;
     str_HTTPException := λ _ d, d;
     torch_cuda := Raise (Exception "No module named torch");
     START_TIME := Qc_of_Z 0;
     float_sum := py_sum |}.

Definition at_ms (ms : Z) : readings :=
  {| uuid := "id"; now := Qc_of_Z 0; model_load_time := Qc_of_Z 0;
     total_time := Qc_of_Z ms; process_time := Qc_of_Z ms;
     isoformat := "2025-01-01T00:00:00" |}.

Definition en_request (img : string) (detail : Z) : OcrRequest.t :=
  {| OcrRequest.image := img; OcrRequest.languages := ["en"];
     OcrRequest.detail := detail; OcrRequest.gpu := true |}.

(** The entry and the world after a first request for English on the stub
    engine. *)
Definition warm_entry : cache_entry :=
  mkEntry (mkReader 0 ["en"] true) ["en"] (Qc_of_Z 0) true.

Definition warm_world : world :=
  (get_or_create_model (E:=stub) ["en"] true (Qc_of_Z 0) initial_world).2.

(** ** Vocabulary of the statements *)

(** A request is completed when the rest of the application answered it or
    raised an [Exception]; a [BaseException] (a cancelled task, an interrupt)
    abandons it. *)
Definition completed {A} (r : result A) : Prop :=
  match r with
  | Ok _ => True
  | Raise e => is_Exception e = true
  end.

(** How [track_requests] counts the outcome of [call_next]. *)
Definition count_outcome {A} (r : result A) (s : stats) : stats :=
  match r with
  | Ok _ => count_success s
  | Raise e => if is_Exception e then count_failure s else s
  end.

(** The last [WINDOW] of all the samples recorded so far. *)
Definition last_window (samples : list Qc) : list Qc :=
  drop (length samples - WINDOW) samples.



(** [success / total * 100] as the code computes it, in doubles. *)
Definition float_percent (success total : Z) : Qc :=
  float_mul (int_truediv success total) (Qc_of_Z 100).

(** [sum(xs) / len(xs)] as the code computes it, in doubles. *)
Definition float_mean `{E : Env} (xs : list Qc) : Qc :=
  float_div (float_sum xs) (Qc_of_Z (Z.of_nat (length xs))).

(** The samples of a queue of requests, in order. *)
Definition samples (reqs : list (request * readings)) : list Qc :=
  (λ p, process_time p.2) <$> reqs.

(** A span as the engine is expected to give it: four corners of two
    coordinates and a confidence between 0 and 1. *)
Definition well_formed (item : raw_item) : Prop :=
  match item with
  | RawText _ => False
  | RawSpan b _ c =>
      length b = 4%nat ∧ Forall (λ p, length p = 2%nat) b ∧
      (Qc_of_Z 0 ≤ c ≤ Qc_of_Z 1)%Qc
  end.

(** The JSON object the bridge prints for a detailed result. *)
Definition json_of_result (r : OcrResult) : json :=
  JObject [("bbox", JArray ((λ p, JArray (JInt <$> p)) <$> bbox r));
           ("text", JString (text r));
           ("confidence", JFloat (confidence r))].

(** A queue of requests every one of which is completed. *)
Fixpoint all_completed `{E : Env} (reqs : list (request * readings))
    (w : world) : Prop :=
  match reqs with
  | [] => True
  | (req, rd) :: reqs =>
      completed (call_next req rd w).1 ∧ all_completed reqs (handle req rd w).2
  end.



(** Callers whose builds fail, each listed with the exception its
    constructor call raises: the [i]-th of them makes the [i]-th constructor
    call after the [n] already logged. *)
Definition builds_fail `{E : Env}
    (failing : list (list string * bool * Qc * exn)) (n : nat) : Prop :=
  ∀ i c e, failing !! i = Some (c, e) →
    Reader_init c.1.1 c.1.2 (n + i) = Some e.

(** The stub engine with a constructor that raises the first time it is
    called and never again. *)
Definition flaky : Env :=
  {| image := string;
     Reader_init := λ _ _ n,
       if decide (n = 0%nat) then Some (Exception "out of memory") else None;
     image_open := @image_open stub;
     readtext := @readtext stub;
     str_HTTPException := λ _ d, d;
     torch_cuda := Ok None;
     START_TIME := Qc_of_Z 0;
     float_sum := py_sum |}.

(** ** The rest of the bridge's [main] *)

(** [s.split(',')]: the pieces between the commas, at least one. *)
Fixpoint split_comma (s : string) : list string :=
  match s with
  | EmptyString => [EmptyString]
  | String c s' =>
      if decide (c = ","%char) then EmptyString :: split_comma s'
      else match split_comma s' with
           | piece :: pieces => String c piece :: pieces
           | [] => [String c EmptyString]
           end
  end.

(** The [args] of [main], as [parser.parse_args()] returns them: [gpu] is
    already a boolean and [detail] passed [choices=[0, 1]]. *)
Module Namespace.
Record t : Type := mk {
  languages : string;
  image : string;
  gpu : bool;
  detail : Z
}.
End Namespace.

(** What a run of the bridge leaves behind: the value [main] returns, which
    [sys.exit] makes the exit status, and the JSON documents printed on the
    two streams. *)
Record run : Type := mkRun {
  exit_code : Z;
  stdout : list json;
  stderr : list json
}.

Section bridge_main.
Context `{E : Env}.
(** [str.strip()] *)
Variable strip : string → string.
(** [reader.readtext(path, detail=detail)] on the path of an image file *)
Variable readtext_path : Reader → string → Z → result (list raw_item).

(** [[lang.strip() for lang in args.languages.split(',')]] *)
Definition parse_languages (arg : string) : list string :=
  strip <$> split_comma arg.

(** [main], from the line after [parse_args]. The reader is the first and
    only one the process constructs. *)
Definition main (args : Namespace.t) : result run :=
  let languages := parse_languages (Namespace.languages args) in
  let body :=
    reader ← match Reader_init languages (Namespace.gpu args) 0 with
             | Some e => Raise e
             | None => Ok (mkReader 0 languages (Namespace.gpu args))
             end;
    results ← readtext_path reader (Namespace.image args) (Namespace.detail args);
    bridge_output (Namespace.detail args) results in
  match body with
  | Ok output => Ok {| exit_code := 0; stdout := [output]; stderr := [] |}
  | Raise e =>
      if is_Exception e then
        Ok {| exit_code := 1; stdout := [];
              stderr := [JObject [("error", JString (str e))]] |}
      else Raise e
  end.

End bridge_main.

(** ** More vocabulary *)

(** A language code without a comma in it. *)
Fixpoint comma_free (s : string) : Prop :=
  match s with
  | EmptyString => True
  | String c s' => c ≠ ","%char ∧ comma_free s'
  end.

(** The number of commas in a string. *)
Fixpoint count_commas (s : string) : nat :=
  match s with
  | EmptyString => 0
  | String c s' => (if decide (c = ","%char) then 1 else 0) + count_commas s'
  end.

(** The text of an element of the engine's output. *)
Definition raw_text (item : raw_item) : string :=
  match item with
  | RawText t => t
  | RawSpan _ t _ => t
  end.

(** The shape [perform_ocr] can unpack at a detail level: a bare string at
    level 0, otherwise a span whose corners have two coordinates each. *)
Definition unpacks (detail : Z) (item : raw_item) : Prop :=
  match item with
  | RawText _ => detail = 0
  | RawSpan b _ _ => detail ≠ 0 ∧ Forall (λ p, length p = 2%nat) b
  end.

(** The [ModelInfo] that [list_models] makes of an entry. *)
Definition info_of (value : cache_entry) : ModelInfo.t :=
  {| ModelInfo.languages := languages value;
     ModelInfo.loaded_at := loaded_at value;
     ModelInfo.gpu_enabled := gpu_enabled value |}.

(** The cache is truthful: every entry sits under the key of the languages
    it records, and its reader is the one a logged constructor call made
    from those languages and that accelerator flag. *)
Definition cache_truthful (w : world) : Prop :=
  ∀ k e, MODEL_CACHE w !! k = Some e →
    k = get_model_key (languages e) ∧
    reader_languages (reader e) = languages e ∧
    reader_gpu (reader e) = gpu_enabled e ∧
    builds w !! reader_id (reader e) = Some (languages e, gpu_enabled e).

(** The stub engine with a constructor that never raises. *)
Definition polyglot : Env :=
  {| image := string;
     Reader_init := λ _ _ _, None;
     image_open := @image_open stub;
     readtext := @readtext stub;
     str_HTTPException := λ _ d, d;
     torch_cuda := Ok None;
     START_TIME := Qc_of_Z 0;
     float_sum := py_sum |}.

(** The stub engine reading image files for the bridge. *)
Definition stub_readtext_path (r : Reader) (path : string) (detail : Z)
    : result (list raw_item) :=
  if decide (path = "missing.png") then Raise (Exception "file not found")
  else if decide (detail = 0) then Ok [RawText "HI"]
  else Ok [RawSpan HI_box "HI" (Q2Qc (95 # 100))].

(** * Properties *)

Local Open Scope list_scope.

(** ** ModelKey *)

Lemma sorted_Permutation (l1 l2 : list string) :
  l1 ≡ₚ l2 → sorted l1 = sorted l2.
Proof.
  intros Hp. unfold sorted.
  apply (Sorted_unique String.le); try apply Sorted_merge_sort; try apply _.
  by rewrite !merge_sort_Permutation.
Qed.

(** C3, as the code has it: the key depends on the codes and on how often
    each occurs, not on their order. Two language lists that are permutations
    of one another have the same key. *)
Theorem get_model_key_Permutation (l1 l2 : list string) :
  l1 ≡ₚ l2 → get_model_key l1 = get_model_key l2.
Proof. intros Hp. unfold get_model_key. by rewrite (sorted_Permutation l1 l2). Qed.

Lemma get_model_key_Permutation_witness :
  ["en"; "fr"] ≡ₚ ["fr"; "en"] ∧ get_model_key ["en"; "fr"] = get_model_key ["fr"; "en"].
Proof.
  assert (Hp : ["en"; "fr"] ≡ₚ ["fr"; "en"]) by apply perm_swap.
  split; [exact Hp | exact (get_model_key_Permutation _ _ Hp)].
Defined.

(** C3 fails on duplicates: [["en"; "en"]] and [["en"]] have the same
    elements and different keys, ["en,en"] and ["en"]. *)
Lemma get_model_key_keeps_duplicates :
  (∀ code : string, code ∈ ["en"; "en"] ↔ code ∈ ["en"]) ∧
  get_model_key ["en"; "en"] = "en,en" ∧
  get_model_key ["en"] = "en" ∧
  get_model_key ["en"; "en"] ≠ get_model_key ["en"].
Proof.
  split; [intros code; rewrite !elem_of_cons, elem_of_nil; tauto |].
  split; [reflexivity |]. split; [reflexivity |].
  vm_compute. discriminate.
Qed.

(** ** ModelCache *)

Section cache.
Context `{E : Env}.

Lemma get_or_create_model_hit languages gpu now w e :
  MODEL_CACHE w !! get_model_key languages = Some e →
  get_or_create_model languages gpu now w = (Ok (reader e), w).
Proof.
  intros Hk. unfold get_or_create_model, mbind, M_bind, get_world, cache_reader.
  rewrite decide_False by congruence. cbn. by rewrite Hk.
Qed.

Lemma get_or_create_model_built languages gpu now w :
  MODEL_CACHE w !! get_model_key languages = None →
  Reader_init languages gpu (length (builds w)) = None →
  get_or_create_model languages gpu now w =
    (Ok (mkReader (length (builds w)) languages gpu),
     set_cache <[get_model_key languages :=
       mkEntry (mkReader (length (builds w)) languages gpu) languages now gpu]>
       (log_build languages gpu w)).
Proof.
  intros Hk Hb. unfold get_or_create_model, mbind, M_bind, get_world.
  rewrite decide_True by done.
  unfold try_except, new_Reader, modify, cache_reader. rewrite Hb. cbn.
  by rewrite lookup_insert_eq.
Qed.

Lemma get_or_create_model_failed languages gpu now w e :
  MODEL_CACHE w !! get_model_key languages = None →
  Reader_init languages gpu (length (builds w)) = Some e →
  get_or_create_model languages gpu now w =
    (Raise (build_error e), log_build languages gpu w).
Proof.
  intros Hk Hb. unfold get_or_create_model, mbind, M_bind, get_world.
  rewrite decide_True by done.
  unfold try_except, new_Reader, build_error, raise. rewrite Hb.
  by destruct (is_Exception e).
Qed.

End cache.

Section cache_effects.
Context `{E : Env}.

(** On a miss the constructor is called once, whatever comes of it. *)
Lemma get_or_create_model_miss_builds languages gpu now w :
  MODEL_CACHE w !! get_model_key languages = None →
  builds (get_or_create_model languages gpu now w).2 =
    builds w ++ [(languages, gpu)].
Proof.
  intros Hk. destruct (Reader_init languages gpu (length (builds w))) as [e|] eqn:Hb.
  - by rewrite (get_or_create_model_failed _ _ _ _ e).
  - by rewrite get_or_create_model_built.
Qed.

(** The function never touches [STATS]. *)
Lemma get_or_create_model_STATS languages gpu now w :
  STATS (get_or_create_model languages gpu now w).2 = STATS w.
Proof.
  destruct (MODEL_CACHE w !! get_model_key languages) as [e|] eqn:Hk.
  - by rewrite (get_or_create_model_hit _ _ _ _ e).
  - destruct (Reader_init languages gpu (length (builds w))) as [e|] eqn:Hb.
    + by rewrite (get_or_create_model_failed _ _ _ _ e).
    + by rewrite get_or_create_model_built.
Qed.

(** It never removes or replaces an entry. *)
Lemma get_or_create_model_keeps languages gpu now w k e :
  MODEL_CACHE w !! k = Some e →
  MODEL_CACHE (get_or_create_model languages gpu now w).2 !! k = Some e.
Proof.
  intros Hke.
  destruct (MODEL_CACHE w !! get_model_key languages) as [e'|] eqn:Hk.
  - by rewrite (get_or_create_model_hit _ _ _ _ e').
  - destruct (Reader_init languages gpu (length (builds w))) as [e'|] eqn:Hb.
    + by rewrite (get_or_create_model_failed _ _ _ _ e').
    + rewrite get_or_create_model_built by done. cbn.
      rewrite lookup_insert_ne; [done | congruence].
Qed.

(** The world after [perform_ocr]: that of [get_or_create_model] when the
    image opens, the one before otherwise. *)
Lemma perform_ocr_world request rd w :
  (perform_ocr request rd w).2 =
    match image_open (OcrRequest.image request) with
    | Ok _ => (get_or_create_model (OcrRequest.languages request)
                 (OcrRequest.gpu request) (now rd) w).2
    | Raise _ => w
    end.
Proof.
  unfold perform_ocr, try_except at 1, mbind, M_bind, try_except, lift, raise.
  destruct (image_open (OcrRequest.image request)) as [img|ex]; cbn.
  - destruct (get_or_create_model _ _ _ w) as [[rdr|ex] w1]; cbn.
    + destruct (readtext rdr img _) as [raw|ex]; cbn.
      * destruct (parse_results _ raw) as [rs|ex]; cbn; [done |].
        by destruct ex.
      * by destruct ex.
    + by destruct ex.
  - by destruct ex.
Qed.

Lemma warmup_model_world languages gpu rd w :
  (warmup_model languages gpu rd w).2 =
    (get_or_create_model languages gpu (now rd) w).2.
Proof.
  unfold warmup_model, try_except, mbind, M_bind, raise.
  destruct (get_or_create_model _ _ _ w) as [[rdr|ex] w1]; cbn; [done |].
  by destruct (is_Exception ex).
Qed.

(** An endpoint changes the world only through [get_or_create_model]. *)
Lemma endpoint_world req rd w :
  (endpoint req rd w).2 = w ∨
  ∃ languages gpu, (endpoint req rd w).2 =
    (get_or_create_model languages gpu (now rd) w).2.
Proof.
  destruct req as [| | | | |r|languages gpu]; cbn.
  - by left.
  - by left.
  - left. unfold get_server_info, fmap, M_fmap, mbind, M_bind, lift.
    by destruct torch_cuda.
  - by left.
  - by left.
  - unfold fmap, M_fmap.
    pose proof (perform_ocr_world r rd w) as Hw.
    destruct (perform_ocr r rd w) as [[resp|ex] w1]; cbn in *; subst w1;
      (destruct (image_open _); [right; eauto | by left]).
  - right. exists languages, gpu. rewrite <-warmup_model_world.
    unfold mbind, M_bind.
    by destruct (warmup_model languages gpu rd w) as [[[st ls]|ex] w1].
Qed.

Lemma call_next_world req rd w :
  (call_next req rd w).2 = (endpoint req rd w).2 ∨ (call_next req rd w).2 = w.
Proof.
  unfold call_next.
  destruct req; try (destruct (endpoint _ rd w) as [[b|[]] w1]; by left).
  case_decide; [| by right].
  destruct (endpoint _ rd w) as [[b|[]] w1]; by left.
Qed.

Lemma call_next_STATS req rd w : STATS (call_next req rd w).2 = STATS w.
Proof.
  destruct (call_next_world req rd w) as [-> | ->]; [| done].
  destruct (endpoint_world req rd w) as [-> | (languages & gpu & ->)]; [done |].
  apply get_or_create_model_STATS.
Qed.

Lemma call_next_keeps req rd w k e :
  MODEL_CACHE w !! k = Some e → MODEL_CACHE (call_next req rd w).2 !! k = Some e.
Proof.
  intros Hk. destruct (call_next_world req rd w) as [-> | ->]; [| done].
  destruct (endpoint_world req rd w) as [-> | (languages & gpu & ->)]; [done |].
  by apply get_or_create_model_keeps.
Qed.

Lemma track_requests_cache {A} (next : M A) pt w :
  MODEL_CACHE (track_requests next pt w).2 = MODEL_CACHE (next w).2.
Proof.
  unfold track_requests. destruct (next w) as [[a|ex] w1]; cbn; [done |].
  by destruct (is_Exception ex).
Qed.

Lemma handle_keeps req rd w k e :
  MODEL_CACHE w !! k = Some e → MODEL_CACHE (handle req rd w).2 !! k = Some e.
Proof.
  intros Hk. unfold handle. rewrite track_requests_cache.
  by apply call_next_keeps.
Qed.

Lemma serve_keeps reqs w k e :
  MODEL_CACHE w !! k = Some e → MODEL_CACHE (serve reqs w) !! k = Some e.
Proof.
  revert w. induction reqs as [|[req rd] reqs IH]; intros w Hk; [done |].
  cbn. by apply IH, handle_keeps.
Qed.

End cache_effects.

Section cache_claims.
Context `{E : Env}.

(** C2, as the code has it: the cache key is made from the language list
    alone. Two requests whose language lists have the same key share one
    entry whatever their accelerator preferences: the first builds the
    reader with its own flag, the second receives that very reader, built
    with the first flag, and no second build takes place. *)
Theorem get_or_create_model_shared_across_gpu
    languages languages' gpu gpu' now now' w :
  get_model_key languages' = get_model_key languages →
  MODEL_CACHE w !! get_model_key languages = None →
  Reader_init languages gpu (length (builds w)) = None →
  ∃ r w1,
    get_or_create_model languages gpu now w = (Ok r, w1) ∧
    get_or_create_model languages' gpu' now' w1 = (Ok r, w1) ∧
    reader_gpu r = gpu ∧
    gpu_enabled <$> MODEL_CACHE w1 !! get_model_key languages' = Some gpu ∧
    builds w1 = builds w ++ [(languages, gpu)].
Proof.
  intros Hkey Hk Hb.
  set (r := mkReader (length (builds w)) languages gpu).
  set (entry := mkEntry r languages now gpu).
  exists r, (set_cache <[get_model_key languages := entry]> (log_build languages gpu w)).
  split; [by apply get_or_create_model_built |].
  split.
  - rewrite (get_or_create_model_hit _ _ _ _ entry); [done |].
    rewrite Hkey. cbn. apply lookup_insert_eq.
  - split; [done |]. split; [| done].
    rewrite Hkey. cbn. by rewrite lookup_insert_eq.
Qed.

(** C5, as the code has it: an empty language list is not refused. Its key
    is the empty string, and while that key is not cached the constructor is
    called with the empty list; when the constructor returns, the reader is
    installed under the empty key and handed to the caller. *)
Theorem empty_language_list_is_built gpu now w :
  MODEL_CACHE w !! EmptyString = None →
  get_model_key [] = EmptyString ∧
  builds (get_or_create_model [] gpu now w).2 = builds w ++ [([], gpu)] ∧
  (Reader_init [] gpu (length (builds w)) = None →
   ∃ w1, get_or_create_model [] gpu now w =
           (Ok (mkReader (length (builds w)) [] gpu), w1) ∧
         reader <$> MODEL_CACHE w1 !! EmptyString =
           Some (mkReader (length (builds w)) [] gpu)).
Proof.
  intros Hk. split; [done |]. split.
  - by apply get_or_create_model_miss_builds.
  - intros Hb. eexists. split; [by apply get_or_create_model_built |].
    cbn. by rewrite lookup_insert_eq.
Qed.

(** C6: when the constructor raises while [get_or_create_model] builds the
    model of an uncached key, the caller gets the error (wrapped as a 500
    [HTTPException] when it is an [Exception]), the cache and the statistics
    are as before, and the next call for that key calls the constructor
    again. *)
Theorem failed_build_is_retried languages gpu now w e :
  MODEL_CACHE w !! get_model_key languages = None →
  Reader_init languages gpu (length (builds w)) = Some e →
  ∃ w1,
    get_or_create_model languages gpu now w = (Raise (build_error e), w1) ∧
    MODEL_CACHE w1 = MODEL_CACHE w ∧
    STATS w1 = STATS w ∧
    builds w1 = builds w ++ [(languages, gpu)] ∧
    ∀ languages' gpu' now',
      get_model_key languages' = get_model_key languages →
      builds (get_or_create_model languages' gpu' now' w1).2 =
        builds w1 ++ [(languages', gpu')].
Proof.
  intros Hk Hb. eexists. split; [by apply get_or_create_model_failed |].
  repeat split.
  intros languages' gpu' now' Hkey.
  apply get_or_create_model_miss_builds. by rewrite Hkey.
Qed.

(** C7: while a key has an entry, [get_or_create_model] returns the entry's
    reader and changes nothing (so the constructor is not called); a warmup
    of that key succeeds and changes nothing; a recognition failure on that
    reader leaves the whole state as it was; and no sequence of requests
    removes or replaces the entry. *)
Theorem cached_handle_is_kept languages gpu now rd w e :
  MODEL_CACHE w !! get_model_key languages = Some e →
  get_or_create_model languages gpu now w = (Ok (reader e), w) ∧
  warmup_model languages gpu rd w = (Ok ("success"%string, languages), w) ∧
  (∀ request img ex,
     get_model_key (OcrRequest.languages request) = get_model_key languages →
     image_open (OcrRequest.image request) = Ok img →
     readtext (reader e) img (OcrRequest.detail request) = Raise ex →
     ∃ ex', perform_ocr request rd w = (Raise ex', w)) ∧
  (∀ reqs, MODEL_CACHE (serve reqs w) !! get_model_key languages = Some e).
Proof.
  intros Hk. split; [by apply get_or_create_model_hit |]. split.
  - unfold warmup_model, try_except, mbind, M_bind.
    by rewrite (get_or_create_model_hit _ _ _ _ e).
  - split; [| intros reqs; by apply serve_keeps].
    intros request img ex Hkey Hopen Hread.
    unfold perform_ocr, try_except at 1, mbind, M_bind, try_except, lift, raise.
    rewrite Hopen. cbn.
    rewrite (get_or_create_model_hit _ _ _ _ e) by (by rewrite Hkey).
    cbn. rewrite Hread. cbn. destruct ex; cbn; eauto.
Qed.

Lemma get_or_create_each_app callers1 callers2 w :
  get_or_create_each (callers1 ++ callers2) w =
    ((get_or_create_each callers1 w).1 ++
       (get_or_create_each callers2 (get_or_create_each callers1 w).2).1,
     (get_or_create_each callers2 (get_or_create_each callers1 w).2).2).
Proof.
  revert w. induction callers1 as [|[[ls g] t] cs IH]; intros w.
  - cbn. by destruct (get_or_create_each callers2 w).
  - cbn [app get_or_create_each].
    destruct (get_or_create_model ls g t w) as [r w1]. rewrite IH.
    destruct (get_or_create_each cs w1) as [rs w2]. cbn.
    by destruct (get_or_create_each callers2 w2).
Qed.

(** Callers of a cached key all get the cached reader. *)
Lemma get_or_create_each_hits key e callers w :
  MODEL_CACHE w !! key = Some e →
  Forall (λ c, get_model_key c.1.1 = key) callers →
  get_or_create_each callers w = (replicate (length callers) (Ok (reader e)), w).
Proof.
  intros Hk Hall. induction Hall as [|[[ls g] t] cs Hc _ IH]; [done |].
  cbn [get_or_create_each length replicate]. cbn [fst] in Hc.
  rewrite (get_or_create_model_hit _ _ _ _ e) by (by rewrite Hc).
  by rewrite IH.
Qed.

(** Callers of an uncached key whose builds all fail. *)
Lemma get_or_create_each_failing key failing w :
  MODEL_CACHE w !! key = None →
  Forall (λ p, get_model_key p.1.1.1 = key) failing →
  builds_fail failing (length (builds w)) →
  get_or_create_each failing.*1 w =
    ((λ p, Raise (build_error p.2)) <$> failing,
     mkWorld (MODEL_CACHE w) (STATS w)
       (builds w ++ ((λ p, (p.1.1.1, p.1.1.2)) <$> failing))).
Proof.
  intros Hk Hall. revert w Hk.
  induction Hall as [|[[[ls g] t] e] fs Hc _ IH]; intros w Hk Hfail.
  - cbn. rewrite app_nil_r. by destruct w.
  - cbn [fmap list_fmap fst snd get_or_create_each]. cbn [fst] in Hc.
    assert (Hb : Reader_init ls g (length (builds w)) = Some e).
    { specialize (Hfail 0%nat (ls, g, t) e eq_refl). cbn in Hfail.
      by rewrite Nat.add_0_r in Hfail. }
    rewrite (get_or_create_model_failed _ _ _ _ e); [| by rewrite Hc | done].
    rewrite (IH (log_build ls g w)); [| done |].
    + cbn. by rewrite <-app_assoc.
    + intros i c e' Hi. cbn. rewrite length_app. cbn.
      specialize (Hfail (S i) c e' Hi).
      by replace (length (builds w) + 1 + i)%nat
        with (length (builds w) + S i)%nat by lia.
Qed.

(** C1, as the code has it: callers of one uncached key, served one after
    the other as the event loop does. Each caller in turn calls the
    constructor itself until a build succeeds: a caller whose build fails
    gets the error of its own call and leaves the cache as it was; the first
    build that succeeds installs its reader, and every caller after it
    receives that reader without a constructor call. So there is one
    constructor call when the first build succeeds, one more for each build
    that failed before it, and one per caller when every build fails. *)
Theorem builds_until_first_success key failing w :
  MODEL_CACHE w !! key = None →
  Forall (λ p, get_model_key p.1.1.1 = key) failing →
  builds_fail failing (length (builds w)) →
  (∃ w1,
     get_or_create_each failing.*1 w =
       ((λ p, Raise (build_error p.2)) <$> failing, w1) ∧
     MODEL_CACHE w1 = MODEL_CACHE w ∧
     builds w1 = builds w ++ ((λ p, (p.1.1.1, p.1.1.2)) <$> failing)) ∧
  ∀ languages gpu now rest,
    get_model_key languages = key →
    Forall (λ c, get_model_key c.1.1 = key) rest →
    Reader_init languages gpu (length (builds w) + length failing) = None →
    ∃ r w2,
      get_or_create_each (failing.*1 ++ (languages, gpu, now) :: rest) w =
        (((λ p, Raise (build_error p.2)) <$> failing) ++
           replicate (S (length rest)) (Ok r), w2) ∧
      builds w2 =
        builds w ++ ((λ p, (p.1.1.1, p.1.1.2)) <$> failing) ++
          [(languages, gpu)] ∧
      reader <$> MODEL_CACHE w2 !! key = Some r.
Proof.
  intros Hk Hall Hfail.
  pose proof (get_or_create_each_failing key failing w Hk Hall Hfail) as Hpre.
  split; [eexists; split; [exact Hpre | done] |].
  intros languages gpu now rest Hkey Hrest Hb.
  rewrite get_or_create_each_app, Hpre. cbn [fst snd].
  set (w1 := mkWorld _ _ _).
  assert (Hlen : length (builds w1) =
                 (length (builds w) + length failing)%nat)
    by (subst w1; cbn; by rewrite length_app, length_fmap).
  cbn [get_or_create_each].
  rewrite get_or_create_model_built;
    [| by rewrite Hkey | by rewrite Hlen].
  set (r := mkReader _ _ _). set (entry := mkEntry _ _ _ _).
  set (w2 := set_cache _ _).
  rewrite (get_or_create_each_hits key entry rest w2); [| | done].
  - exists r, w2. cbn [fst snd replicate]. split; [done |]. split.
    + subst w2 w1. cbn. by rewrite <-app_assoc.
    + subst w2. cbn. rewrite Hkey. by rewrite lookup_insert_eq.
  - subst w2. cbn. rewrite Hkey. apply lookup_insert_eq.
Qed.

End cache_claims.

(** *** The cache claims on the stub engine *)

Lemma get_or_create_model_shared_across_gpu_witness :
  ∃ r w1,
    get_or_create_model (E:=stub) ["en"] true (Qc_of_Z 0) initial_world = (Ok r, w1) ∧
    get_or_create_model (E:=stub) ["en"] false (Qc_of_Z 1) w1 = (Ok r, w1) ∧
    reader_gpu r = true ∧
    gpu_enabled <$> MODEL_CACHE w1 !! get_model_key ["en"] = Some true ∧
    builds w1 = builds initial_world ++ [(["en"], true)].
Proof.
  apply (get_or_create_model_shared_across_gpu (E:=stub)); reflexivity.
Defined.

(** C2 fails: a request for English without the accelerator, coming after one
    with it, resolves to the same key ["en"] and is handed the reader that
    was built with [gpu=True]; the constructor has run once. *)
Lemma gpu_preference_not_in_key :
  (get_or_create_model (E:=stub) ["en"] false (Qc_of_Z 1) warm_world).1 =
    Ok (mkReader 0 ["en"] true) ∧
  reader_gpu (mkReader 0 ["en"] true) ≠ false ∧
  builds (get_or_create_model (E:=stub) ["en"] false (Qc_of_Z 1) warm_world).2 =
    [(["en"], true)].
Proof. split; [reflexivity |]. split; [discriminate | reflexivity]. Qed.

Lemma empty_language_list_is_built_witness :
  MODEL_CACHE initial_world !! EmptyString = None ∧
  builds (get_or_create_model (E:=stub) [] true (Qc_of_Z 0) initial_world).2 =
    builds initial_world ++ [([], true)].
Proof.
  assert (Hk : MODEL_CACHE initial_world !! EmptyString = None) by reflexivity.
  split; [exact Hk |].
  exact (proj1 (proj2
    (empty_language_list_is_built (E:=stub) true (Qc_of_Z 0) initial_world Hk))).
Defined.

(** C5 fails: the empty list gets a key, the empty string, and a model. *)
Lemma empty_language_list_not_refused :
  get_model_key [] = EmptyString ∧
  (get_or_create_model (E:=stub) [] true (Qc_of_Z 0) initial_world).1 =
    Ok (mkReader 0 [] true) ∧
  builds (get_or_create_model (E:=stub) [] true (Qc_of_Z 0) initial_world).2 =
    [([], true)].
Proof. repeat split. Qed.

Lemma failed_build_is_retried_witness :
  ∃ w1,
    get_or_create_model (E:=stub) ["xx"] true (Qc_of_Z 0) initial_world =
      (Raise (build_error (E:=stub) (Exception "unsupported language")), w1) ∧
    MODEL_CACHE w1 = MODEL_CACHE initial_world ∧
    STATS w1 = STATS initial_world ∧
    builds w1 = builds initial_world ++ [(["xx"], true)] ∧
    ∀ languages' gpu' now',
      get_model_key languages' = get_model_key ["xx"] →
      builds (get_or_create_model (E:=stub) languages' gpu' now' w1).2 =
        builds w1 ++ [(languages', gpu')].
Proof.
  apply (failed_build_is_retried (E:=stub)); reflexivity.
Defined.

Lemma cached_handle_is_kept_witness :
  MODEL_CACHE warm_world !! get_model_key ["en"] = Some warm_entry ∧
  get_or_create_model (E:=stub) ["en"] false (Qc_of_Z 1) warm_world =
    (Ok (reader warm_entry), warm_world).
Proof.
  assert (Hk : MODEL_CACHE warm_world !! get_model_key ["en"] = Some warm_entry)
    by reflexivity.
  split; [exact Hk |].
  exact (proj1 (cached_handle_is_kept (E:=stub) ["en"] false (Qc_of_Z 1)
                  (at_ms 1) warm_world warm_entry Hk)).
Defined.

(** First a build that fails, then one that succeeds, then a caller who
    shares it: two constructor calls for three callers. *)
Lemma builds_until_first_success_witness :
  ∃ r w2,
    get_or_create_each (E:=flaky)
      [(["en"], true, Qc_of_Z 0); (["en"], true, Qc_of_Z 1);
       (["en"], false, Qc_of_Z 2)] initial_world =
      ([Raise (build_error (E:=flaky) (Exception "out of memory"));
        Ok r; Ok r], w2) ∧
    builds w2 = [(["en"], true); (["en"], true)] ∧
    reader <$> MODEL_CACHE w2 !! "en" = Some r.
Proof.
  refine (proj2 (builds_until_first_success (E:=flaky) "en"
            [(["en"], true, Qc_of_Z 0, Exception "out of memory")]
            initial_world eq_refl _ _)
          ["en"] true (Qc_of_Z 1) [(["en"], false, Qc_of_Z 2)]
          eq_refl _ eq_refl).
  - by repeat constructor.
  - intros [|i] c e; [intros [= <- <-]; reflexivity | discriminate].
  - by repeat constructor.
Defined.

(** C1 fails when the build fails: two callers of the uncached key ["xx"]
    make the constructor run twice, once each, and each gets the error of
    its own run; nothing is handed from one caller to the other. *)
Lemma failed_build_runs_for_every_caller :
  MODEL_CACHE initial_world !! get_model_key ["xx"] = None ∧
  (get_or_create_each (E:=stub)
     [(["xx"], true, Qc_of_Z 0); (["xx"], true, Qc_of_Z 0)] initial_world).1 =
    [Raise (HTTPException 500 "Failed to load model: unsupported language");
     Raise (HTTPException 500 "Failed to load model: unsupported language")] ∧
  builds (get_or_create_each (E:=stub)
     [(["xx"], true, Qc_of_Z 0); (["xx"], true, Qc_of_Z 0)] initial_world).2 =
    [(["xx"], true); (["xx"], true)].
Proof. repeat split. Qed.

(** ** StatsTracker *)

Lemma last_window_short (l : list Qc) :
  (length l ≤ WINDOW)%nat → last_window l = l.
Proof.
  intros Hl. unfold last_window.
  by replace (length l - WINDOW)%nat with 0%nat by lia.
Qed.

Lemma last_window_length (l : list Qc) : (length (last_window l) ≤ WINDOW)%nat.
Proof. unfold last_window. rewrite length_drop. lia. Qed.

Lemma last_window_snoc (l : list Qc) (x : Qc) :
  last_window (last_window l ++ [x]) = last_window (l ++ [x]).
Proof.
  destruct (decide (length l ≤ WINDOW)%nat) as [Hl|Hl].
  - by rewrite (last_window_short l).
  - assert (HW : (0 < WINDOW)%nat) by (unfold WINDOW; lia).
    assert (Hk : (length (drop (length l - WINDOW) l) = WINDOW)%nat)
      by (rewrite length_drop; lia).
    unfold last_window. rewrite !length_app, Hk. cbn [length].
    replace (WINDOW + 1 - WINDOW)%nat with 1%nat by lia.
    replace (length l + 1 - WINDOW)%nat with (S (length l - WINDOW)) by lia.
    rewrite (drop_app_le l) by lia.
    rewrite (drop_app_le (drop _ l)) by lia.
    rewrite drop_drop. do 2 f_equal. lia.
Qed.

(** The window after the [finally] block, when it was within capacity. *)
Lemma record_request_window pt s :
  (length (processing_times s) ≤ WINDOW)%nat →
  processing_times (record_request pt s) =
    last_window (processing_times s ++ [pt]).
Proof.
  intros Hl. unfold record_request. cbn [processing_times].
  case_decide as Hfull.
  - unfold last_window. rewrite length_app in *. cbn [length] in *.
    by replace (length (processing_times s) + 1 - WINDOW)%nat with 1%nat by lia.
  - rewrite last_window_short; [done | lia].
Qed.

Section stats.
Context `{E : Env}.

(** The statistics after one request through the middleware. *)
Lemma handle_STATS req rd w :
  STATS (handle req rd w).2 =
    record_request (process_time rd)
      (count_outcome (call_next req rd w).1 (STATS w)).
Proof.
  unfold handle, track_requests.
  pose proof (call_next_STATS req rd w) as Hs.
  destruct (call_next req rd w) as [[resp|ex] w1]; cbn in *; rewrite <-Hs;
    [done |].
  by destruct (is_Exception ex).
Qed.

Lemma count_outcome_times {A} (r : result A) s :
  processing_times (count_outcome r s) = processing_times s.
Proof. destruct r as [a|ex]; cbn; [done |]. by destruct (is_Exception ex). Qed.

(** The window holds the last [WINDOW] samples of everything recorded. *)
Lemma serve_window reqs w hist :
  processing_times (STATS w) = last_window hist →
  processing_times (STATS (serve reqs w)) = last_window (hist ++ samples reqs).
Proof.
  revert w hist. induction reqs as [|[req rd] reqs IH]; intros w hist Hw.
  - cbn. by rewrite app_nil_r.
  - cbn [serve]. unfold samples. rewrite fmap_cons. cbn [snd].
    rewrite (cons_middle _ hist), app_assoc. apply IH.
    rewrite handle_STATS, record_request_window.
    + by rewrite count_outcome_times, Hw, last_window_snoc.
    + rewrite count_outcome_times, Hw. apply last_window_length.
Qed.

(** The endpoints that only read the state always answer. *)
Lemma read_only_endpoints_answer req rd w :
  req = GET_root ∨ req = GET_health ∨ req = GET_stats ∨ req = GET_models →
  ∃ resp, call_next req rd w = (Ok resp, w) ∧ status_code resp = 200.
Proof. intros [-> | [-> | [-> | ->]]]; eexists; by split. Qed.

End stats.

(** *** Rounding *)

Ltac to_Q :=
  unfold Qcle, Qclt, Qcminus, Qcdiv, Qcplus, Qcmult, Qcopp, Qcinv, Q2Qc, Qc_of_Z in *;
  cbn [this] in *; rewrite ?Qred_correct in *.




Section stats_claims.
Context `{E : Env}.


End stats_claims.


(** ** The middleware's counters *)

Section counters.
Context `{E : Env}.

(** C10: every completed request, to whatever endpoint, adds one to the
    total, one to exactly one of the success and failure counters, and its
    latency sample to the end of the window (the oldest sample leaving when
    the window is full); so [total = successful + failed] is kept. A request
    to the statistics or the health endpoint is counted like any other, as a
    success. *)
Theorem every_completed_request_is_counted req rd w :
  completed (call_next req rd w).1 →
  total_requests (STATS (handle req rd w).2) = total_requests (STATS w) + 1 ∧
  (successful_requests (STATS (handle req rd w).2) =
     successful_requests (STATS w) + 1 ∧
   failed_requests (STATS (handle req rd w).2) = failed_requests (STATS w)
   ∨
   successful_requests (STATS (handle req rd w).2) =
     successful_requests (STATS w) ∧
   failed_requests (STATS (handle req rd w).2) =
     failed_requests (STATS w) + 1) ∧
  (processing_times (STATS (handle req rd w).2) =
     processing_times (STATS w) ++ [process_time rd]
   ∨
   processing_times (STATS (handle req rd w).2) =
     tail (processing_times (STATS w)) ++ [process_time rd]) ∧
  (total_requests (STATS w) =
     successful_requests (STATS w) + failed_requests (STATS w) →
   total_requests (STATS (handle req rd w).2) =
     successful_requests (STATS (handle req rd w).2) +
     failed_requests (STATS (handle req rd w).2)) ∧
  (req = GET_stats ∨ req = GET_health →
   successful_requests (STATS (handle req rd w).2) =
     successful_requests (STATS w) + 1).
Proof.
  intros Hdone. rewrite handle_STATS.
  assert (Htimes :
    processing_times (record_request (process_time rd)
       (count_outcome (call_next req rd w).1 (STATS w))) =
      processing_times (STATS w) ++ [process_time rd] ∨
    processing_times (record_request (process_time rd)
       (count_outcome (call_next req rd w).1 (STATS w))) =
      tail (processing_times (STATS w)) ++ [process_time rd]).
  { unfold record_request. cbn [processing_times].
    rewrite count_outcome_times. case_decide as Hfull; [| by left].
    right. destruct (processing_times (STATS w)); [| done].
    cbn in Hfull. unfold WINDOW in Hfull. lia. }
  split; [| split; [| split; [exact Htimes | split]]].
  - destruct (call_next req rd w).1 as [resp|ex]; cbn; [done |].
    by destruct (is_Exception ex).
  - destruct (call_next req rd w).1 as [resp|ex]; cbn in *; [by left |].
    rewrite Hdone. by right.
  - destruct (call_next req rd w).1 as [resp|ex]; cbn in *; [lia |].
    rewrite Hdone. cbn. lia.
  - intros [-> | ->]; by cbn.
Qed.

(** Over a whole queue of completed requests the counters add up. *)
Lemma serve_counts reqs w :
  all_completed reqs w →
  total_requests (STATS w) =
    successful_requests (STATS w) + failed_requests (STATS w) →
  total_requests (STATS (serve reqs w)) =
    total_requests (STATS w) + Z.of_nat (length reqs) ∧
  total_requests (STATS (serve reqs w)) =
    successful_requests (STATS (serve reqs w)) +
    failed_requests (STATS (serve reqs w)).
Proof.
  revert w. induction reqs as [|[req rd] reqs IH]; intros w Hall Hinv.
  - cbn. split; [lia | done].
  - destruct Hall as [Hdone Hall]. cbn [serve length].
    assert (Hstep :
      total_requests (STATS (handle req rd w).2) = total_requests (STATS w) + 1 ∧
      total_requests (STATS (handle req rd w).2) =
        successful_requests (STATS (handle req rd w).2) +
        failed_requests (STATS (handle req rd w).2)).
    { rewrite handle_STATS.
      destruct (call_next req rd w).1 as [resp|ex]; cbn in *; [lia |].
      rewrite Hdone. cbn. lia. }
    destruct Hstep as [Htot Hinv'].
    destruct (IH _ Hall Hinv') as [IH1 IH2]. split; [lia | done].
Qed.

(** What [perform_ocr] raises is an [HTTPException], or was not an
    [Exception] to begin with: nothing the middleware's [except Exception]
    clause would see. *)
Lemma perform_ocr_raises request rd w ex w1 :
  perform_ocr request rd w = (Raise ex, w1) →
  (∃ s d, ex = HTTPException s d) ∨ is_Exception ex = false.
Proof.
  unfold perform_ocr, try_except at 1, mbind, M_bind, try_except, lift, raise.
  destruct (image_open (OcrRequest.image request)) as [img|e]; cbn.
  - destruct (get_or_create_model _ _ _ w) as [[rdr|e] w2]; cbn.
    + destruct (readtext rdr img _) as [raw|e]; cbn.
      * destruct (parse_results _ raw) as [rs|e]; cbn; [done |].
        destruct e; cbn; intros [= <- <-]; eauto.
      * destruct e; cbn; intros [= <- <-]; eauto.
    + destruct e; cbn; intros [= <- <-]; eauto.
  - destruct e; cbn; intros [= <- <-]; eauto.
Qed.

(** So a request to the OCR endpoint never adds to the failure counter,
    whatever went wrong in it. *)
Lemma ocr_request_never_counted_as_failed r rd w :
  failed_requests (STATS (handle (POST_ocr r) rd w).2) =
    failed_requests (STATS w).
Proof.
  rewrite handle_STATS. unfold call_next. case_decide; [| done].
  cbn [endpoint]. unfold fmap, M_fmap.
  destruct (perform_ocr r rd w) as [[resp|ex] w1] eqn:Hocr; cbn; [done |].
  destruct (perform_ocr_raises _ _ _ _ _ Hocr) as [(s & d & ->) | Hex];
    [done |].
  destruct ex; cbn in *; try done.
Qed.

End counters.

Lemma every_completed_request_is_counted_witness :
  completed (call_next (E:=stub) GET_stats (at_ms 7) initial_world).1 ∧
  total_requests (STATS (handle (E:=stub) GET_stats (at_ms 7) initial_world).2) =
    total_requests (STATS initial_world) + 1.
Proof.
  assert (Hdone : completed (call_next (E:=stub) GET_stats (at_ms 7) initial_world).1)
    by exact I.
  split; [exact Hdone |].
  exact (proj1 (every_completed_request_is_counted (E:=stub)
                  GET_stats (at_ms 7) initial_world Hdone)).
Defined.

(** C4 fails on the code: an OCR request that fails, whether on the image,
    on the model build or on the recognition, is answered with an error
    status and counted as a success. The failure counter stays at 0. *)
Theorem failed_ocr_requests_count_as_successes :
  (handle (E:=stub) (POST_ocr (en_request "not-an-image" 1)) (at_ms 5)
     initial_world).1 =
    Ok (mkResponse 400
          (ErrorBody "Invalid image data: cannot identify image file")) ∧
  (handle (E:=stub)
     (POST_ocr (OcrRequest.mk "img" ["xx"] 1 true)) (at_ms 5)
     initial_world).1 =
    Ok (mkResponse 500
          (ErrorBody "Failed to load model: unsupported language")) ∧
  (handle (E:=stub) (POST_ocr (en_request "unreadable" 1)) (at_ms 5)
     initial_world).1 =
    Ok (mkResponse 500 (ErrorBody "recognition failed")) ∧
  Forall (λ request,
    STATS (handle (E:=stub) (POST_ocr request) (at_ms 5) initial_world).2 =
      {| total_requests := 1; successful_requests := 1;
         failed_requests := 0; processing_times := [Qc_of_Z 5] |})
    [en_request "not-an-image" 1; OcrRequest.mk "img" ["xx"] 1 true;
     en_request "unreadable" 1].
Proof.
  split; [reflexivity |]. split; [reflexivity |]. split; [reflexivity |].
  repeat constructor.
Qed.

(** ** The detail levels *)

(** A list is mapped without an exception exactly when each element is. *)
Lemma mapM_Ok {A B} (f : A → result B) (l : list A) (ys : list B) :
  mapM f l = Ok ys ↔ Forall2 (λ x y, f x = Ok y) l ys.
Proof.
  revert ys. induction l as [|x l IH]; intros ys; cbn.
  - split; [intros [= <-]; constructor | by inversion 1].
  - unfold mbind, result_bind, mret, result_ret.
    destruct (f x) as [y|e] eqn:Hx.
    + destruct (mapM f l) as [ys'|e] eqn:Hl.
      * split.
        -- intros [= <-]. constructor; [done | by apply IH].
        -- inversion 1 as [|? y' ? ys'' Hy Hrest]; subst.
           apply IH in Hrest. congruence.
      * split; [done |]. inversion 1 as [|? y' ? ys'' Hy Hrest]; subst.
        apply IH in Hrest. congruence.
    + split; [done |]. inversion 1; congruence.
Qed.

Lemma corner_Ok (p : list Qc) (p' : list Z) :
  corner p = Ok p' ↔ length p = 2%nat ∧ p' = py_int <$> p.
Proof.
  destruct p as [|x [|y [|z p]]]; cbn; split;
    try (intros [? ?]; discriminate); try discriminate.
  - intros [= <-]. done.
  - intros [_ ->]. done.
Qed.

Lemma bridge_corner_Ok (p : list Qc) :
  length p = 2%nat → bridge_corner p = Ok (JArray (JInt <$> (py_int <$> p))).
Proof. by destruct p as [|x [|y [|z p]]]. Qed.

(** The corners of a box, when all of them unpack. *)
Lemma corners_Ok (b : list (list Qc)) (b' : list (list Z)) :
  mapM (M:=result) corner b = Ok b' ↔
  Forall (λ p, length p = 2%nat) b ∧ b' = (λ p : list Qc, py_int <$> p) <$> b.
Proof.
  rewrite mapM_Ok. split.
  - induction 1 as [|p p' b b' Hp _ [IH1 IH2]]; [done |].
    apply corner_Ok in Hp as [Hp ->]. subst b'. split; [by constructor | done].
  - intros [Hb ->]. induction Hb as [|p b Hp _ IH]; cbn; constructor;
      [by apply corner_Ok | done].
Qed.

Lemma simple_result_Ok item r :
  simple_result item = Ok r ↔
  item = RawText (text r) ∧ bbox r = [] ∧ confidence r = 0%Qc.
Proof.
  destruct item as [t|b t c]; cbn; split.
  - intros [= <-]. done.
  - destruct r as [b t' c]. cbn. intros ([= ->] & -> & ->). done.
  - done.
  - intros [? _]. discriminate.
Qed.

Lemma detailed_result_Ok item r :
  detailed_result item = Ok r ↔
  ∃ b, item = RawSpan b (text r) (confidence r) ∧
       Forall (λ p, length p = 2%nat) b ∧ bbox r = (λ p : list Qc, py_int <$> p) <$> b.
Proof.
  destruct item as [t|b t c].
  - split; [done | intros (? & ? & _); discriminate].
  - change (detailed_result (RawSpan b t c)) with
      (mapM (M:=result) corner b ≫= λ b', Ok (mkOcrResult b' t c)).
    destruct (mapM (M:=result) corner b) as [b'|e] eqn:Hb; cbn.
    + apply corners_Ok in Hb as [Hb ->]. split.
      * intros [= <-]. by exists b.
      * destruct r as [rb rt rc]. cbn. intros (b0 & [= -> -> ->] & _ & ->). done.
    + split; [done |]. intros (b0 & [= <- ? ?] & Hb0 & _).
      assert (Hok : mapM (M:=result) corner b =
                    Ok ((λ p : list Qc, py_int <$> p) <$> b))
        by (by apply corners_Ok).
      rewrite Hok in Hb. discriminate.
Qed.

(** The bridge prints, for each span, the JSON of the server's result. *)
Lemma bridge_detailed_Ok item r :
  detailed_result item = Ok r → bridge_detailed item = Ok (json_of_result r).
Proof.
  intros (b & -> & Hb & Hbox)%detailed_result_Ok.
  change (bridge_detailed (RawSpan b (text r) (confidence r))) with
    (mapM (M:=result) bridge_corner b ≫= λ b',
       Ok (JObject [("bbox", JArray b'); ("text", JString (text r));
                    ("confidence", JFloat (confidence r))])).
  assert (Hm : mapM (M:=result) bridge_corner b =
               Ok ((λ p : list Z, JArray (JInt <$> p)) <$> ((λ p : list Qc, py_int <$> p) <$> b))).
  { apply mapM_Ok. clear Hbox. induction Hb as [|p b Hp _ IH]; cbn;
      constructor; [by apply bridge_corner_Ok | done]. }
  rewrite Hm. cbn. unfold json_of_result. by rewrite Hbox.
Qed.

Section detail.
Context `{E : Env}.

(** A successful [perform_ocr] went through all four steps. *)
Lemma perform_ocr_Ok request rd w resp w1 :
  perform_ocr request rd w = (Ok resp, w1) →
  ∃ img rdr raw,
    image_open (OcrRequest.image request) = Ok img ∧
    get_or_create_model (OcrRequest.languages request)
      (OcrRequest.gpu request) (now rd) w = (Ok rdr, w1) ∧
    readtext rdr img (OcrRequest.detail request) = Ok raw ∧
    parse_results (OcrRequest.detail request) raw =
      Ok (OcrResponse.results resp) ∧
    OcrResponse.status resp = "success"%string ∧
    OcrResponse.request_id resp = uuid rd.
Proof.
  unfold perform_ocr, try_except at 1, mbind, M_bind, try_except, lift, raise.
  destruct (image_open (OcrRequest.image request)) as [img|e]; cbn.
  - destruct (get_or_create_model _ _ _ w) as [[rdr|e] w2]; cbn.
    + destruct (readtext rdr img _) as [raw|e] eqn:Hread; cbn.
      * destruct (parse_results _ raw) as [rs|e] eqn:Hparse; cbn.
        -- intros [= <- <-]. by exists img, rdr, raw.
        -- destruct e; discriminate.
      * destruct e; discriminate.
    + destruct e; discriminate.
  - destruct e; discriminate.
Qed.

(** C9: in a successful response, at detail 0 every entry carries the text
    the engine gave, an empty box and confidence 0; at detail 1 every entry
    carries the engine's text and confidence and its box with each
    coordinate truncated to an integer, in the engine's order, so that a
    four-corner box comes out as four integer points and a confidence in
    [0, 1] stays there. The bridge prints, from the same engine output, an
    object with the one key [text] at detail 0 and the JSON of the same
    entries at detail 1. *)
Theorem detail_level_contract request rd w resp w1 :
  perform_ocr request rd w = (Ok resp, w1) →
  ∃ img rdr raw,
    image_open (OcrRequest.image request) = Ok img ∧
    readtext rdr img (OcrRequest.detail request) = Ok raw ∧
    (OcrRequest.detail request = 0 →
       Forall2 (λ item r,
           item = RawText (text r) ∧ bbox r = [] ∧ confidence r = 0%Qc)
         raw (OcrResponse.results resp) ∧
       bridge_output 0 raw =
         Ok (JArray ((λ r, JObject [("text"%string, JString (text r))]) <$>
                       OcrResponse.results resp))) ∧
    (OcrRequest.detail request = 1 →
       Forall2 (λ item r, ∃ b,
           item = RawSpan b (text r) (confidence r) ∧
           bbox r = (λ p : list Qc, py_int <$> p) <$> b ∧
           (well_formed item →
              length (bbox r) = 4%nat ∧
              Forall (λ p, length p = 2%nat) (bbox r) ∧
              (Qc_of_Z 0 ≤ confidence r ≤ Qc_of_Z 1)%Qc))
         raw (OcrResponse.results resp) ∧
       bridge_output 1 raw =
         Ok (JArray (json_of_result <$> OcrResponse.results resp))).
Proof.
  intros (img & rdr & raw & Hopen & _ & Hread & Hparse & _)%perform_ocr_Ok.
  exists img, rdr, raw. split; [done |]. split; [done |].
  unfold parse_results in Hparse. split; intros Hd; rewrite Hd in Hparse.
  - rewrite decide_True in Hparse by done. apply mapM_Ok in Hparse.
    split.
    + eapply Forall2_impl; [exact Hparse |]. intros item r.
      apply simple_result_Ok.
    + unfold bridge_output. rewrite decide_True by done. do 2 f_equal.
      clear Hread. induction Hparse as [|item r raw' rs Hr _ IH]; [done |].
      apply simple_result_Ok in Hr as (-> & _ & _). cbn. by rewrite IH.
  - rewrite decide_False in Hparse by done. apply mapM_Ok in Hparse.
    split.
    + eapply Forall2_impl; [exact Hparse |]. intros item r Hr.
      apply detailed_result_Ok in Hr as (b & -> & Hb & Hbox).
      exists b. split; [done |]. split; [done |].
      intros (Hfour & Htwo & Hconf). rewrite Hbox.
      split; [by rewrite length_fmap |]. split; [| done].
      apply Forall_fmap. eapply Forall_impl; [exact Htwo |].
      intros p Hp. cbn. by rewrite length_fmap.
    + unfold bridge_output. rewrite decide_False by done.
      assert (Hm : mapM (M:=result) bridge_detailed raw =
                   Ok (json_of_result <$> OcrResponse.results resp)).
      { apply mapM_Ok. apply Forall2_fmap_r.
        eapply Forall2_impl; [exact Hparse |]. intros item r.
        apply bridge_detailed_Ok. }
      by rewrite Hm.
Qed.

(** With well-formed spans the detailed shaping cannot fail. *)
Lemma parse_results_detailed_total raw :
  Forall well_formed raw → ∃ rs, parse_results 1 raw = Ok rs.
Proof.
  intros Hraw. unfold parse_results. rewrite decide_False by done.
  induction Hraw as [|item raw Hitem _ [rs IH]].
  - by exists [].
  - destruct item as [t|b t c]; [done |]. destruct Hitem as (_ & Htwo & _).
    assert (Hitem : detailed_result (RawSpan b t c) =
              Ok (mkOcrResult ((λ p : list Qc, py_int <$> p) <$> b) t c))
      by (apply detailed_result_Ok; by exists b).
    eexists. apply mapM_Ok. constructor; [exact Hitem | by apply mapM_Ok].
Qed.

End detail.

Lemma detail_level_contract_witness :
  ∃ img rdr raw,
    image_open (Env:=stub) "img" = Ok img ∧
    readtext rdr img 1 = Ok raw ∧
    Forall2 (λ item r, ∃ b,
        item = RawSpan b (text r) (confidence r) ∧
        bbox r = (λ p : list Qc, py_int <$> p) <$> b ∧
        (well_formed item →
           length (bbox r) = 4%nat ∧
           Forall (λ p, length p = 2%nat) (bbox r) ∧
           (Qc_of_Z 0 ≤ confidence r ≤ Qc_of_Z 1)%Qc))
      raw [mkOcrResult [[0; 0]; [10; 0]; [10; 10]; [0; 10]] "HI"
             (Q2Qc (95 # 100))] ∧
    bridge_output 1 raw =
      Ok (JArray (json_of_result <$>
            [mkOcrResult [[0; 0]; [10; 0]; [10; 10]; [0; 10]] "HI"
               (Q2Qc (95 # 100))])).
Proof.
  destruct (detail_level_contract (E:=stub) (en_request "img" 1) (at_ms 5)
              initial_world _ _ eq_refl)
    as (img & rdr & raw & Hopen & Hread & _ & Hone).
  destruct (Hone eq_refl) as [Hserver Hbridge].
  by exists img, rdr, raw.
Defined.

(** * Further properties *)

(** ** Keys and their codes *)

Lemma split_comma_not_nil (s : string) : split_comma s ≠ [].
Proof.
  induction s as [|c s IH]; cbn [split_comma]; [done |].
  case_decide; [done |]. by destruct (split_comma s).
Qed.

Lemma split_comma_comma_free (x : string) :
  comma_free x → split_comma x = [x].
Proof.
  induction x as [|c x IH]; cbn [split_comma comma_free]; [done |].
  intros [Hc Hx]. rewrite decide_False by done. by rewrite IH.
Qed.

(** Splitting a code followed by a comma and more. *)
Lemma split_comma_app (x rest : string) :
  comma_free x →
  split_comma (x +:+ "," +:+ rest) = x :: split_comma rest.
Proof.
  induction x as [|c x IH]; [done |]. cbn [comma_free].
  intros [Hc Hx].
  change (String c x +:+ "," +:+ rest) with (String c (x +:+ "," +:+ rest)).
  cbn [split_comma]. rewrite decide_False by done. by rewrite IH.
Qed.

(** Joining with commas and splitting at them gives the codes back, when
    there is at least one code and no code holds a comma. *)
Lemma split_comma_concat (l : list string) :
  l ≠ [] → Forall comma_free l → split_comma (String.concat "," l) = l.
Proof.
  intros Hne Hl. induction Hl as [|x l Hx Hl IH]; [done |].
  destruct l as [|y l].
  - cbn. by apply split_comma_comma_free.
  - change (String.concat "," (x :: y :: l))
      with (x +:+ "," +:+ String.concat "," (y :: l)).
    rewrite split_comma_app by done. by rewrite IH.
Qed.

(** X2: the pieces of any string, joined with commas again, are the string;
    so what the bridge hands to the engine loses nothing of [--languages]
    but the commas. *)
Theorem concat_split_comma (s : string) :
  String.concat "," (split_comma s) = s.
Proof.
  induction s as [|c s IH]; [done |]. cbn [split_comma].
  case_decide as Hc.
  - subst c. pose proof (split_comma_not_nil s) as Hne.
    destruct (split_comma s) as [|p ps] eqn:Hs; [done |].
    change (String.concat "," (EmptyString :: p :: ps))
      with ("," +:+ String.concat "," (p :: ps)).
    by rewrite IH.
  - pose proof (split_comma_not_nil s) as Hne.
    destruct (split_comma s) as [|p ps] eqn:Hs; [done |].
    destruct ps as [|q ps].
    + cbn in *. by rewrite IH.
    + change (String.concat "," (String c p :: q :: ps))
        with (String c (p +:+ "," +:+ String.concat "," (q :: ps))).
      change (String.concat "," (p :: q :: ps))
        with (p +:+ "," +:+ String.concat "," (q :: ps)) in IH.
      by rewrite IH.
Qed.

(** X1: a key can be read back. For at least one code, none holding a comma,
    splitting the key at its commas gives the sorted codes. *)
Theorem split_comma_get_model_key (languages : list string) :
  languages ≠ [] → Forall comma_free languages →
  split_comma (get_model_key languages) = sorted languages.
Proof.
  intros Hne Hl. unfold get_model_key.
  assert (Hp : sorted languages ≡ₚ languages) by apply merge_sort_Permutation.
  apply split_comma_concat.
  - intros Hnil. rewrite Hnil in Hp. by apply Permutation_nil_l in Hp.
  - by rewrite Hp.
Qed.

Lemma split_comma_get_model_key_witness :
  split_comma (get_model_key ["fr"; "en"]) = sorted ["fr"; "en"].
Proof.
  apply split_comma_get_model_key; [done |].
  repeat constructor; vm_compute; intros [=].
Defined.

(** X3: keys do not collide. Two non-empty language lists of comma-free
    codes with the same key are permutations of one another, so requests for
    different languages never share a cache entry. *)
Theorem get_model_key_inj (l1 l2 : list string) :
  l1 ≠ [] → l2 ≠ [] → Forall comma_free l1 → Forall comma_free l2 →
  get_model_key l1 = get_model_key l2 → l1 ≡ₚ l2.
Proof.
  intros Hn1 Hn2 Hc1 Hc2 Hkey.
  assert (Hs : sorted l1 = sorted l2).
  { assert (Hsplit : ∀ l, l ≠ [] → Forall comma_free l →
              split_comma (get_model_key l) = sorted l).
    { intros l Hne Hl. unfold get_model_key.
      assert (Hp : sorted l ≡ₚ l) by apply merge_sort_Permutation.
      apply split_comma_concat; [| by rewrite Hp].
      intros Hnil. rewrite Hnil in Hp. by apply Permutation_nil_l in Hp. }
    rewrite <-(Hsplit l1), <-(Hsplit l2) by done. by rewrite Hkey. }
  rewrite <-(merge_sort_Permutation String.le l1).
  rewrite <-(merge_sort_Permutation String.le l2).
  fold (sorted l1) (sorted l2). by rewrite Hs.
Qed.

Lemma get_model_key_inj_witness :
  get_model_key ["en"; "fr"] = get_model_key ["fr"; "en"] ∧
  ["en"; "fr"] ≡ₚ ["fr"; "en"].
Proof.
  assert (Hkey : get_model_key ["en"; "fr"] = get_model_key ["fr"; "en"])
    by reflexivity.
  split; [exact Hkey |].
  apply get_model_key_inj; [done | done | | | exact Hkey];
    repeat constructor; vm_compute; intros [=].
Defined.

(** ** What the requests do to the cache *)

Section cache_invariants.
Context `{E : Env}.

(** The three things [get_or_create_model] can do to the world. *)
Lemma get_or_create_model_cases languages gpu now w :
  (get_or_create_model languages gpu now w).2 = w ∨
  MODEL_CACHE w !! get_model_key languages = None ∧
  ((get_or_create_model languages gpu now w).2 = log_build languages gpu w ∨
   (get_or_create_model languages gpu now w).2 =
     set_cache <[get_model_key languages :=
       mkEntry (mkReader (length (builds w)) languages gpu) languages now gpu]>
       (log_build languages gpu w)).
Proof.
  destruct (MODEL_CACHE w !! get_model_key languages) as [e|] eqn:Hk.
  - left. by rewrite (get_or_create_model_hit _ _ _ _ e).
  - right. split; [done |].
    destruct (Reader_init languages gpu (length (builds w))) as [e|] eqn:Hb.
    + left. by rewrite (get_or_create_model_failed _ _ _ _ e).
    + right. by rewrite get_or_create_model_built.
Qed.

Lemma track_requests_world {A} (next : M A) pt w :
  ∃ f, (track_requests next pt w).2 = set_stats f (next w).2.
Proof.
  unfold track_requests. destruct (next w) as [[a|ex] w1]; cbn.
  - by exists (λ s, record_request pt (count_success s)).
  - destruct (is_Exception ex).
    + by exists (λ s, record_request pt (count_failure s)).
    + by exists (record_request pt).
Qed.

(** A property of the cache and of the build log that
    [get_or_create_model] keeps is kept by every queue of requests. *)
Lemma serve_keeps_invariant (P : world → Prop) :
  (∀ w f, P w → P (set_stats f w)) →
  (∀ w languages gpu now, P w → P (get_or_create_model languages gpu now w).2) →
  ∀ reqs w, P w → P (serve reqs w).
Proof.
  intros Hstats Hget reqs.
  induction reqs as [|[req rd] reqs IH]; intros w Hw; [done |].
  cbn [serve]. apply IH. unfold handle.
  destruct (track_requests_world (call_next req rd) (process_time rd) w)
    as [f ->].
  apply Hstats.
  destruct (call_next_world req rd w) as [-> | ->]; [| done].
  destruct (endpoint_world req rd w) as [-> | (languages & gpu & ->)];
    [done | by apply Hget].
Qed.

Lemma get_or_create_model_truthful languages gpu now w :
  cache_truthful w →
  cache_truthful (get_or_create_model languages gpu now w).2.
Proof.
  intros Hw.
  destruct (get_or_create_model_cases languages gpu now w)
    as [-> | [Hk [-> | ->]]]; [done | |]; intros k e; cbn.
  - intros Hke. destruct (Hw k e Hke) as (? & ? & ? & Hb).
    repeat split; try done. by apply lookup_app_l_Some.
  - destruct (decide (k = get_model_key languages)) as [-> | Hne].
    + rewrite lookup_insert_eq. intros [= <-]. cbn.
      repeat split. by rewrite lookup_app_r, Nat.sub_diag.
    + rewrite lookup_insert_ne by done. intros Hke.
      destruct (Hw k e Hke) as (? & ? & ? & Hb).
      repeat split; try done. by apply lookup_app_l_Some.
Qed.

(** X4: the cache's metadata stays truthful. Whatever requests were served
    since the start, every entry sits under the key of the languages it
    records, and its reader was made by a constructor call with exactly
    those languages and that accelerator flag. *)
Theorem cache_stays_truthful reqs :
  cache_truthful (serve reqs initial_world).
Proof.
  apply (serve_keeps_invariant cache_truthful).
  - intros w f Hw k e. apply Hw.
  - intros w languages gpu now. apply get_or_create_model_truthful.
  - intros k e. cbn. by rewrite lookup_empty.
Qed.

(** X5: a request makes at most one constructor call, and the endpoints that
    only read (root, health, info, statistics, model list) make none and
    leave the cache as it is. *)
Theorem at_most_one_build_per_request req rd w :
  (builds (handle req rd w).2 = builds w ∨
   ∃ languages gpu, builds (handle req rd w).2 = builds w ++ [(languages, gpu)]) ∧
  ((∀ r, req ≠ POST_ocr r) → (∀ languages gpu, req ≠ POST_warmup languages gpu) →
   builds (handle req rd w).2 = builds w ∧
   MODEL_CACHE (handle req rd w).2 = MODEL_CACHE w).
Proof.
  unfold handle.
  destruct (track_requests_world (call_next req rd) (process_time rd) w)
    as [f ->]. cbn [set_stats builds MODEL_CACHE].
  split.
  - destruct (call_next_world req rd w) as [-> | ->]; [| by left].
    destruct (endpoint_world req rd w) as [-> | (languages & gpu & ->)];
      [by left |].
    destruct (get_or_create_model_cases languages gpu (now rd) w)
      as [-> | [_ [-> | ->]]]; [by left | right; eauto | right; eauto].
  - intros Hocr Hwarm.
    destruct req as [| | | | |r|languages gpu];
      try (by destruct (Hocr r)); try (by destruct (Hwarm languages gpu));
      try done.
    unfold call_next, endpoint, get_server_info, fmap, M_fmap, mbind, M_bind,
      lift.
    by destruct torch_cuda as [c|[]].
Qed.

Lemma get_or_create_model_size languages gpu now w :
  (size (MODEL_CACHE w) ≤ length (builds w))%nat →
  (size (MODEL_CACHE (get_or_create_model languages gpu now w).2) ≤
   length (builds (get_or_create_model languages gpu now w).2))%nat.
Proof.
  intros Hw.
  destruct (get_or_create_model_cases languages gpu now w)
    as [-> | [Hk [-> | ->]]]; [done | |]; cbn; rewrite length_app; cbn.
  - lia.
  - rewrite map_size_insert_None by done. lia.
Qed.

(** X6: there are never more cached models than constructor calls; and with
    a constructor that never raises there are exactly as many: every model
    in the cache was built once and no build was wasted. *)
Theorem every_model_built_once reqs :
  (size (MODEL_CACHE (serve reqs initial_world)) ≤
   length (builds (serve reqs initial_world)))%nat ∧
  ((∀ languages gpu n, Reader_init languages gpu n = None) →
   length (builds (serve reqs initial_world)) =
     size (MODEL_CACHE (serve reqs initial_world))).
Proof.
  split.
  - apply (serve_keeps_invariant
      (λ w, (size (MODEL_CACHE w) ≤ length (builds w))%nat)).
    + done.
    + intros w languages gpu now. apply get_or_create_model_size.
    + cbn. by rewrite map_size_empty.
  - intros Hinit.
    apply (serve_keeps_invariant
      (λ w, length (builds w) = size (MODEL_CACHE w))).
    + done.
    + intros w languages gpu now Hw.
      destruct (MODEL_CACHE w !! get_model_key languages) as [e|] eqn:Hk.
      * by rewrite (get_or_create_model_hit _ _ _ _ e).
      * rewrite get_or_create_model_built by done. cbn.
        rewrite length_app, map_size_insert_None by done. cbn. lia.
    + cbn. by rewrite map_size_empty.
Qed.

(** X7: shutting down empties the cache and touches nothing else; a
    request for any language that comes after it, cached before or not,
    calls the constructor again. *)
Theorem shutdown_clears_the_cache w :
  ∃ w1, shutdown w = (Ok (), w1) ∧
    MODEL_CACHE w1 = ∅ ∧ STATS w1 = STATS w ∧ builds w1 = builds w ∧
    ∀ languages gpu now,
      builds (get_or_create_model languages gpu now w1).2 =
        builds w ++ [(languages, gpu)].
Proof.
  eexists. split; [reflexivity |]. cbn. repeat split.
  intros languages gpu now.
  by rewrite get_or_create_model_miss_builds by (cbn; apply lookup_empty).
Qed.

(** X8: the model list, the health check and the statistics name the same
    models, those of the cache and no other; the list counts them, and
    describes each with the languages, load time and accelerator flag its
    entry records. None of the three changes the state. *)
Theorem listings_agree rd w :
  ∃ models h s,
    list_models w = (Ok (models, Z.of_nat (size (MODEL_CACHE w))), w) ∧
    health_check rd w = (Ok h, w) ∧
    get_server_stats rd w = (Ok s, w) ∧
    models.*1 = HealthResponse.models_loaded h ∧
    models.*1 = ServerStatsResponse.loaded_models s ∧
    NoDup models.*1 ∧
    ∀ k info, (k, info) ∈ models ↔
      ∃ e, MODEL_CACHE w !! k = Some e ∧ info = info_of e.
Proof.
  assert (Hperm : cache_items w ≡ₚ map_to_list (MODEL_CACHE w))
    by apply merge_sort_Permutation.
  exists (prod_map id info_of <$> cache_items w).
  eexists _, _.
  split.
  { assert (Hlen : length (cache_items w) = size (MODEL_CACHE w))
      by (rewrite Hperm; apply length_map_to_list).
    unfold list_models, mbind, M_bind, get_world, mret, M_ret.
    by rewrite length_fmap, Hlen. }
  split; [reflexivity |]. split; [reflexivity |]. cbn.
  assert (Hfst : (prod_map id info_of <$> cache_items w).*1 = cache_keys w).
  { unfold cache_keys. rewrite <-list_fmap_compose.
    apply list_fmap_ext. by intros i [k e] _. }
  split; [done |]. split; [done |]. split.
  - rewrite Hfst. unfold cache_keys. rewrite Hperm.
    apply NoDup_fst_map_to_list.
  - intros k info. rewrite list_elem_of_fmap. split.
    + intros ([k' e] & [= -> ->] & He). exists e.
      rewrite Hperm in He. split; [by apply elem_of_map_to_list | done].
    + intros (e & He & ->). exists (k, e).
      split; [done |]. rewrite Hperm. by apply elem_of_map_to_list.
Qed.

End cache_invariants.

Lemma every_model_built_once_witness :
  length (builds (serve (E:=polyglot)
            [(POST_warmup ["xx"] true, at_ms 1);
             (POST_ocr (en_request "img" 1), at_ms 2);
             (POST_warmup ["xx"] false, at_ms 3)] initial_world)) =
  size (MODEL_CACHE (serve (E:=polyglot)
            [(POST_warmup ["xx"] true, at_ms 1);
             (POST_ocr (en_request "img" 1), at_ms 2);
             (POST_warmup ["xx"] false, at_ms 3)] initial_world)).
Proof.
  apply (every_model_built_once (E:=polyglot)). reflexivity.
Defined.

(** ** The OCR and warmup endpoints *)

Section ocr_endpoint.
Context `{E : Env}.

Lemma get_or_create_model_Ok languages gpu now w r w1 :
  get_or_create_model languages gpu now w = (Ok r, w1) →
  ∃ e, MODEL_CACHE w1 !! get_model_key languages = Some e ∧ reader e = r.
Proof.
  destruct (MODEL_CACHE w !! get_model_key languages) as [e|] eqn:Hk.
  - rewrite (get_or_create_model_hit _ _ _ _ e) by done.
    intros [= <- <-]. by exists e.
  - destruct (Reader_init languages gpu (length (builds w))) as [e|] eqn:Hb.
    + by rewrite (get_or_create_model_failed _ _ _ _ e).
    + rewrite get_or_create_model_built by done. intros [= <- <-].
      eexists. cbn. by rewrite lookup_insert_eq.
Qed.

(** X9: an image that does not decode is answered with status 400 before
    anything else happens: the state is untouched and no model is built,
    even when the requested languages are not cached yet. *)
Theorem undecodable_image_builds_nothing request rd w e :
  image_open (OcrRequest.image request) = Raise e →
  is_Exception e = true →
  OcrRequest.valid request →
  perform_ocr request rd w =
    (Raise (HTTPException 400 ("Invalid image data: " ++ str e)%string), w) ∧
  call_next (POST_ocr request) rd w =
    (Ok (mkResponse 400 (ErrorBody ("Invalid image data: " ++ str e)%string)), w).
Proof.
  intros Hopen He Hvalid.
  assert (Hocr : perform_ocr request rd w =
    (Raise (HTTPException 400 ("Invalid image data: " ++ str e)%string), w)).
  { unfold perform_ocr, try_except at 1, mbind, M_bind, try_except, lift, raise.
    rewrite Hopen, He. done. }
  split; [exact Hocr |].
  unfold call_next. rewrite decide_True by done.
  cbn [endpoint]. unfold fmap, M_fmap. by rewrite Hocr.
Qed.

(** X10: a model built for a request stays cached when the recognition then
    fails. The request is answered with status 500 and the engine's message,
    the new entry is in the cache, and the requests for that key that follow
    make no constructor call. *)
Theorem failed_recognition_keeps_new_model request rd w img msg :
  image_open (OcrRequest.image request) = Ok img →
  MODEL_CACHE w !! get_model_key (OcrRequest.languages request) = None →
  Reader_init (OcrRequest.languages request) (OcrRequest.gpu request)
    (length (builds w)) = None →
  readtext (mkReader (length (builds w)) (OcrRequest.languages request)
              (OcrRequest.gpu request)) img (OcrRequest.detail request) =
    Raise (Exception msg) →
  ∃ w1 e,
    perform_ocr request rd w = (Raise (HTTPException 500 msg), w1) ∧
    MODEL_CACHE w1 !! get_model_key (OcrRequest.languages request) = Some e ∧
    reader e = mkReader (length (builds w)) (OcrRequest.languages request)
                 (OcrRequest.gpu request) ∧
    ∀ request' rd',
      get_model_key (OcrRequest.languages request') =
        get_model_key (OcrRequest.languages request) →
      (perform_ocr request' rd' w1).2 = w1.
Proof.
  intros Hopen Hk Hb Hread. eexists _, _. split; [| split; [| split]].
  - unfold perform_ocr, try_except at 1, mbind, M_bind, try_except, lift, raise.
    rewrite Hopen. cbn. rewrite get_or_create_model_built by done.
    cbn. rewrite Hread. cbn. reflexivity.
  - cbn. apply lookup_insert_eq.
  - done.
  - intros request' rd' Hkey. rewrite perform_ocr_world.
    destruct (image_open (OcrRequest.image request')); [| done].
    erewrite get_or_create_model_hit; [done |].
    rewrite Hkey. cbn. apply lookup_insert_eq.
Qed.

(** X11: a successful warmup does what it is for. Any OCR request for the
    same key that follows, whatever its accelerator preference and whatever
    becomes of it, leaves the cache and the build log as they are. *)
Theorem warmup_spares_the_build languages gpu rd w out w1 request rd' :
  warmup_model languages gpu rd w = (Ok out, w1) →
  get_model_key (OcrRequest.languages request) = get_model_key languages →
  out = ("success"%string, languages) ∧
  (perform_ocr request rd' w1).2 = w1.
Proof.
  intros Hwarm Hkey.
  unfold warmup_model, try_except, mbind, M_bind, mret, M_ret in Hwarm.
  destruct (get_or_create_model languages gpu (now rd) w) as [[r|ex] w2]
    eqn:Hget.
  - injection Hwarm as <- <-. split; [done |].
    apply get_or_create_model_Ok in Hget as (e & He & _).
    rewrite perform_ocr_world.
    destruct (image_open (OcrRequest.image request)); [| done].
    rewrite (get_or_create_model_hit _ _ _ _ e); [done | by rewrite Hkey].
  - destruct (is_Exception ex); discriminate.
Qed.

(** A detail level outside 0 and 1 is answered with status 422 and
    never reaches the endpoint: the state is untouched. *)
Theorem invalid_detail_is_rejected r rd w :
  ¬ OcrRequest.valid r →
  ∃ resp, call_next (POST_ocr r) rd w = (Ok resp, w) ∧ status_code resp = 422.
Proof.
  intros Hinvalid. unfold call_next. rewrite decide_False by done.
  by eexists.
Qed.

End ocr_endpoint.

Lemma undecodable_image_builds_nothing_witness :
  perform_ocr (E:=stub) (en_request "not-an-image" 1) (at_ms 5) initial_world =
    (Raise (HTTPException 400
       "Invalid image data: cannot identify image file"), initial_world).
Proof.
  refine (proj1 (undecodable_image_builds_nothing (E:=stub)
            (en_request "not-an-image" 1) (at_ms 5) initial_world
            (Exception "cannot identify image file") eq_refl eq_refl _)).
  unfold OcrRequest.valid. cbn. lia.
Defined.

Lemma failed_recognition_keeps_new_model_witness :
  ∃ w1 e,
    perform_ocr (E:=stub) (en_request "unreadable" 1) (at_ms 5) initial_world =
      (Raise (HTTPException 500 "recognition failed"), w1) ∧
    MODEL_CACHE w1 !! get_model_key ["en"] = Some e ∧
    reader e = mkReader 0 ["en"] true ∧
    ∀ request' rd',
      get_model_key (OcrRequest.languages request') = get_model_key ["en"] →
      (perform_ocr (E:=stub) request' rd' w1).2 = w1.
Proof.
  exact (failed_recognition_keeps_new_model (E:=stub)
           (en_request "unreadable" 1) (at_ms 5) initial_world
           "unreadable" "recognition failed" eq_refl eq_refl eq_refl eq_refl).
Defined.

Lemma warmup_spares_the_build_witness :
  (perform_ocr (E:=stub) (en_request "img" 0) (at_ms 2) warm_world).2 =
    warm_world.
Proof.
  exact (proj2 (warmup_spares_the_build (E:=stub) ["en"] true (at_ms 0)
                  initial_world ("success", ["en"]) warm_world
                  (en_request "img" 0) (at_ms 2) eq_refl eq_refl)).
Defined.

Lemma invalid_detail_is_rejected_witness :
  ∃ resp, call_next (E:=stub) (POST_ocr (en_request "img" 2)) (at_ms 1)
            initial_world = (Ok resp, initial_world) ∧
          status_code resp = 422.
Proof.
  apply (invalid_detail_is_rejected (E:=stub)).
  unfold OcrRequest.valid. cbn. lia.
Defined.

(** ** The counters over a run *)

Section run.
Context `{E : Env}.

Lemma handle_counters req rd w :
  total_requests (STATS (handle req rd w).2) = total_requests (STATS w) + 1 ∧
  (successful_requests (STATS w) ≤
     successful_requests (STATS (handle req rd w).2))%Z ∧
  (failed_requests (STATS w) ≤ failed_requests (STATS (handle req rd w).2))%Z ∧
  (successful_requests (STATS (handle req rd w).2) +
     failed_requests (STATS (handle req rd w).2) ≤
   successful_requests (STATS w) + failed_requests (STATS w) + 1)%Z.
Proof.
  rewrite handle_STATS.
  destruct (call_next req rd w).1 as [resp|ex]; cbn; [lia |].
  destruct (is_Exception ex); cbn; lia.
Qed.

Lemma serve_counters reqs w :
  (0 ≤ successful_requests (STATS w))%Z →
  (0 ≤ failed_requests (STATS w))%Z →
  (successful_requests (STATS w) + failed_requests (STATS w) ≤
     total_requests (STATS w))%Z →
  total_requests (STATS (serve reqs w)) =
    total_requests (STATS w) + Z.of_nat (length reqs) ∧
  (0 ≤ successful_requests (STATS (serve reqs w)))%Z ∧
  (0 ≤ failed_requests (STATS (serve reqs w)))%Z ∧
  (successful_requests (STATS (serve reqs w)) +
     failed_requests (STATS (serve reqs w)) ≤
   total_requests (STATS (serve reqs w)))%Z.
Proof.
  revert w. induction reqs as [|[req rd] reqs IH]; intros w Hs Hf Hle.
  - cbn. lia.
  - cbn [serve length].
    destruct (handle_counters req rd w) as (Ht & Hs' & Hf' & Hsum).
    destruct (IH (handle req rd w).2) as (IH1 & IH2 & IH3 & IH4); lia.
Qed.

(** X12: the total counts every request the middleware saw, abandoned ones
    too; the two outcome counters never decrease and never add up to more
    than the total. *)
Theorem total_counts_every_request reqs :
  total_requests (STATS (serve reqs initial_world)) = Z.of_nat (length reqs) ∧
  (0 ≤ successful_requests (STATS (serve reqs initial_world)))%Z ∧
  (0 ≤ failed_requests (STATS (serve reqs initial_world)))%Z ∧
  (successful_requests (STATS (serve reqs initial_world)) +
     failed_requests (STATS (serve reqs initial_world)) ≤
   total_requests (STATS (serve reqs initial_world)))%Z ∧
  ∀ req rd w,
    (successful_requests (STATS w) ≤
       successful_requests (STATS (handle req rd w).2))%Z ∧
    (failed_requests (STATS w) ≤ failed_requests (STATS (handle req rd w).2))%Z.
Proof.
  destruct (serve_counters reqs initial_world) as (H1 & H2 & H3 & H4);
    cbn; try lia.
  cbn in H1. repeat split; try lia; try done.
  - apply handle_counters.
  - apply handle_counters.
Qed.

(** X13: after [n] requests the window holds [min n 1000] samples, and its
    last sample is the one of the last request. *)
Theorem window_fills_then_slides reqs :
  length (processing_times (STATS (serve reqs initial_world))) =
    (length reqs `min` WINDOW)%nat ∧
  last (processing_times (STATS (serve reqs initial_world))) =
    (λ p, process_time p.2) <$> last reqs.
Proof.
  rewrite (serve_window reqs initial_world []) by done.
  rewrite app_nil_l. unfold last_window, samples. split.
  - rewrite length_drop, length_fmap. lia.
  - destruct reqs as [|p reqs _] using rev_ind; [done |].
    rewrite fmap_app, !last_snoc. cbn [fmap list_fmap].
    rewrite length_app, length_fmap. cbn [length].
    rewrite drop_app_le by (rewrite length_fmap; unfold WINDOW; lia).
    by rewrite last_snoc.
Qed.

(** X14: a statistics request does not count itself. The snapshot it
    returns shows the counters as they were before it; once it is answered
    it has been counted, as a success. *)
Theorem stats_request_not_in_own_snapshot rd w :
  ∃ s w1,
    handle GET_stats rd w = (Ok (mkResponse 200 (StatsBody s)), w1) ∧
    ServerStatsResponse.total_requests s = total_requests (STATS w) ∧
    ServerStatsResponse.successful_requests s = successful_requests (STATS w) ∧
    total_requests (STATS w1) = total_requests (STATS w) + 1 ∧
    successful_requests (STATS w1) = successful_requests (STATS w) + 1 ∧
    failed_requests (STATS w1) = failed_requests (STATS w) ∧
    MODEL_CACHE w1 = MODEL_CACHE w.
Proof. eexists _, _. split; [reflexivity |]. by cbn. Qed.

(** X15: the information endpoint depends on [torch]. When the import
    raises, the exception leaves the application through the middleware,
    which here, and only for such an escaping exception, adds to the failure
    counter; otherwise the endpoint answers 200 and reports the accelerator
    as available only when [torch] has [cuda] and says so. *)
Theorem info_needs_torch rd w :
  (∀ msg, torch_cuda = Raise (Exception msg) →
     (handle GET_info rd w).1 = Raise (Exception msg) ∧
     failed_requests (STATS (handle GET_info rd w).2) =
       failed_requests (STATS w) + 1 ∧
     successful_requests (STATS (handle GET_info rd w).2) =
       successful_requests (STATS w) ∧
     total_requests (STATS (handle GET_info rd w).2) =
       total_requests (STATS w) + 1) ∧
  (∀ cuda, torch_cuda = Ok cuda →
     ∃ i, (handle GET_info rd w).1 = Ok (mkResponse 200 (InfoBody i)) ∧
          ServerInfoResponse.gpu_available i = default false cuda ∧
          successful_requests (STATS (handle GET_info rd w).2) =
            successful_requests (STATS w) + 1).
Proof.
  split.
  - intros msg He.
    unfold handle, track_requests, call_next, endpoint, get_server_info,
      fmap, M_fmap, mbind, M_bind, lift.
    rewrite He. done.
  - intros cuda Hc.
    unfold handle, track_requests, call_next, endpoint, get_server_info,
      fmap, M_fmap, mbind, M_bind, lift.
    rewrite Hc. cbn. by eexists.
Qed.

End run.

(** ** The snapshot's success rate *)

(** Rounding to the nearest integer stays between integer bounds. *)
Lemma round_half_even_between (a b : Z) (x : Qc) :
  (Qc_of_Z a ≤ x)%Qc → (x ≤ Qc_of_Z b)%Qc →
  (a ≤ round_half_even x ≤ b)%Z.
Proof.
  intros Ha Hb.
  assert (Hfa : (a ≤ Qfloor x)%Z).
  { rewrite <-(Qfloor_Z a). apply Qfloor_resp_le. exact Ha. }
  assert (Hfb : (Qfloor x ≤ b)%Z).
  { rewrite <-(Qfloor_Z b). apply Qfloor_resp_le. exact Hb. }
  assert (Hup : (Q2Qc (1 # 2) ≤ x - Qc_of_Z (Qfloor x))%Qc →
                (Qfloor x + 1 ≤ b)%Z).
  { intros Hhalf.
    assert (Hlt : (inject_Z (Qfloor x) < inject_Z b)%Q) by (to_Q; lra).
    rewrite <-Zlt_Qlt in Hlt. lia. }
  unfold round_half_even.
  destruct (Qccompare _ _) eqn:Hc.
  - apply Qceq_alt in Hc. destruct (Z.even (Qfloor x)); [lia |].
    split; [lia |]. apply Hup. rewrite Hc. apply Qcle_refl.
  - lia.
  - apply Qcgt_alt in Hc. split; [lia |]. apply Hup. by apply Qclt_le_weak.
Qed.

(** A positive rational below a whole number of at most 52 bits has its
    leading bit at position 52 or lower. *)
Lemma floor_log2_le (q : Qc) (b : Z) :
  (Qc_of_Z 0 < q)%Qc → (q ≤ Qc_of_Z b)%Qc → (Z.log2 b ≤ 51)%Z →
  (floor_log2 q ≤ 52)%Z.
Proof.
  intros Hpos Hle Hb. unfold floor_log2.
  destruct q as [[n d] Hq]. unfold Qclt, Qcle, Qlt, Qle in *.
  cbn [this Qnum Qden Qc_of_Z inject_Z] in *.
  assert (Hn : (0 < n)%Z) by lia.
  assert (Hbpos : (0 < b)%Z) by nia.
  assert (Hlog : (Z.log2 n ≤ Z.log2 b + Z.log2 (Z.pos d) + 1)%Z).
  { etrans; [apply (Z.log2_le_mono n (b * Z.pos d)); lia |].
    apply Z.log2_mul_above; lia. }
  case_decide; lia.
Qed.

(** Scaling up by a power of two, rounding to a whole number and scaling
    down again stays between 0 and a whole bound. *)
Lemma shift_round_between (q : Qc) (b e : Z) :
  (Qc_of_Z 0 ≤ q)%Qc → (q ≤ Qc_of_Z b)%Qc → (e ≤ 0)%Z →
  (Qc_of_Z 0 ≤ shift (Qc_of_Z (round_half_even (shift q (- e)))) e
     ≤ Qc_of_Z b)%Qc.
Proof.
  intros H0 Hb He.
  assert (Hone : e = 0%Z → (2 ^ e)%Z = 1%Z) by (by intros ->).
  assert (Hp : (0 < 2 ^ (- e))%Z) by (apply Z.pow_pos_nonneg; lia).
  assert (Hone' : e = 0%Z → (2 ^ (- e))%Z = 1%Z) by (by intros ->).
  unfold shift. rewrite (decide_True (P:=(0 ≤ - e)%Z)) by lia.
  set (P := (2 ^ (- e))%Z) in *. clearbody P.
  rewrite Zlt_Qlt in Hp. change (inject_Z 0) with 0%Q in Hp.
  destruct (round_half_even_between 0 (b * P) (q * Qc_of_Z P)) as [Hlo Hhi].
  { to_Q. change (inject_Z 0) with 0%Q in *.
    set (p := inject_Z P) in *. clearbody p.
    apply Qmult_le_0_compat; lra. }
  { to_Q. rewrite inject_Z_mult.
    set (p := inject_Z P) in *. clearbody p.
    apply Qmult_le_compat_r; lra. }
  set (m := round_half_even _) in *. clearbody m.
  rewrite Zle_Qle in Hlo, Hhi. rewrite inject_Z_mult in Hhi.
  change (inject_Z 0) with 0%Q in Hlo.
  case_decide as Hcase.
  - assert (He0 : e = 0%Z) by lia. rewrite (Hone He0).
    assert (HP : inject_Z P = 1%Q) by (by rewrite (Hone' He0)).
    to_Q. change (inject_Z 0) with 0%Q in *. change (inject_Z 1) with 1%Q in *.
    rewrite HP in Hhi. split; lra.
  - to_Q. change (inject_Z 0) with 0%Q in *.
    set (p := inject_Z P) in *. clearbody p. split.
    + apply Qle_shift_div_l; [done | lra].
    + apply Qle_shift_div_r; [done | lra].
Qed.

(** Rounding to a double stays between 0 and a whole number of at most 52
    bits. *)
Lemma to_double_between (q : Qc) (b : Z) :
  (Qc_of_Z 0 ≤ q)%Qc → (q ≤ Qc_of_Z b)%Qc → (Z.log2 b ≤ 51)%Z →
  (Qc_of_Z 0 ≤ to_double q ≤ Qc_of_Z b)%Qc.
Proof.
  intros H0 Hb Hlog. unfold to_double.
  case_decide as Hz; [subst q; split; assumption |].
  assert (Hpos : (Qc_of_Z 0 < q)%Qc).
  { apply Qcle_lt_or_eq in H0 as [Hlt | Heq]; [done |].
    destruct Hz. symmetry. apply Qc_is_canon. by rewrite <-Heq. }
  assert (Hpos' : (0 < q)%Qc) by exact Hpos.
  rewrite !decide_True by done.
  pose proof (floor_log2_le q b Hpos Hb Hlog) as Hfl.
  apply shift_round_between; [done | done | lia].
Qed.

Lemma py_round2_between (q : Qc) :
  (Qc_of_Z 0 ≤ q)%Qc → (q ≤ Qc_of_Z 100)%Qc →
  (Qc_of_Z 0 ≤ py_round2 q ≤ Qc_of_Z 100)%Qc.
Proof.
  intros H0 H100. unfold py_round2.
  destruct (round_half_even_between 0 10000 (q * Qc_of_Z 100)) as [Hlo Hhi].
  - to_Q. change (inject_Z 100) with (100 # 1)%Q.
    change (inject_Z 0) with 0%Q in *. lra.
  - to_Q. change (inject_Z 100) with (100 # 1)%Q in *.
    change (inject_Z 10000) with (10000 # 1)%Q. lra.
  - set (n := round_half_even _) in *. clearbody n.
    apply to_double_between; [| | by vm_compute];
      rewrite Zle_Qle in Hlo, Hhi; to_Q;
      change (/ inject_Z 100)%Q with (1 # 100)%Q;
      change (inject_Z 100) with (100 # 1)%Q;
      change (inject_Z 0) with 0%Q in *;
      change (inject_Z 10000) with (10000 # 1)%Q in *; lra.
Qed.

(** A share of a positive total, as the code computes its percentage. *)
Lemma float_percent_between (success total : Z) :
  (0 ≤ success ≤ total)%Z → (0 < total)%Z →
  (Qc_of_Z 0 ≤ float_percent success total ≤ Qc_of_Z 100)%Qc.
Proof.
  intros [Hs Hst] Ht. unfold float_percent, float_mul.
  assert (Hshare : (Qc_of_Z 0 ≤ int_truediv success total ≤ Qc_of_Z 1)%Qc).
  { unfold int_truediv. apply to_double_between; [| | by vm_compute];
      rewrite Zle_Qle in Hs, Hst; rewrite Zlt_Qlt in Ht; to_Q;
      change (inject_Z 0) with 0%Q in *; change (inject_Z 1) with 1%Q.
    - apply Qle_shift_div_l; [done | lra].
    - apply Qle_shift_div_r; [done | lra]. }
  destruct Hshare as [Hlo Hhi].
  set (x := int_truediv success total) in *. clearbody x.
  apply to_double_between; [| | by vm_compute]; to_Q;
    change (inject_Z 100) with (100 # 1)%Q;
    change (inject_Z 0) with 0%Q in *; change (inject_Z 1) with 1%Q in *; lra.
Qed.

Section rate.
Context `{E : Env}.

(** X16: at any time after the start, the success rate of the snapshot lies
    between 0 and 100. *)
Theorem success_rate_is_a_percentage reqs rd :
  ∃ s, get_server_stats rd (serve reqs initial_world) =
         (Ok s, serve reqs initial_world) ∧
       (Qc_of_Z 0 ≤ ServerStatsResponse.success_rate s ≤ Qc_of_Z 100)%Qc.
Proof.
  eexists. split; [reflexivity |].
  cbn [ServerStatsResponse.success_rate].
  destruct (serve_counters reqs initial_world) as (_ & Hs & Hf & Hsum);
    [cbn; lia | cbn; lia | cbn; lia |].
  case_decide as Ht.
  - apply py_round2_between; apply float_percent_between; lia.
  - split; by apply Qcle_alt.
Qed.

End rate.

(** ** Integer corners *)

(** [int] leaves a whole number as it is. *)
Lemma py_int_whole (z : Z) : py_int (Qc_of_Z z) = z.
Proof. unfold py_int. cbn. apply Z.quot_1_r. Qed.

(** X17: the corners of the response are the engine's coordinates cut off
    toward zero: a whole coordinate comes through unchanged, a positive one
    is rounded down by less than 1 and a negative one up by less than 1. *)
Theorem py_int_truncates (x : Qc) :
  (∀ z, x = Qc_of_Z z → py_int x = z) ∧
  ((Qc_of_Z 0 ≤ x)%Qc →
     (Qc_of_Z (py_int x) ≤ x)%Qc ∧ (x < Qc_of_Z (py_int x + 1))%Qc) ∧
  ((x ≤ Qc_of_Z 0)%Qc →
     (Qc_of_Z (py_int x - 1) < x)%Qc ∧ (x ≤ Qc_of_Z (py_int x))%Qc).
Proof.
  split; [intros z ->; apply py_int_whole |].
  unfold py_int. destruct x as [[n d] Hx]. cbn [this Qnum Qden].
  pose proof (Z.quot_rem' n (Zpos d)) as Hqr.
  split; intros Hsign; unfold Qcle, Qclt, Qle, Qlt in *; cbn in *.
  - assert (Hn : (0 ≤ n)%Z) by lia.
    pose proof (Z.rem_bound_pos n (Zpos d) Hn ltac:(lia)) as Hr. nia.
  - assert (Hn : (n ≤ 0)%Z) by lia.
    pose proof (Z.rem_nonpos n (Zpos d) ltac:(lia) Hn) as Hr1.
    pose proof (Z.rem_bound_abs n (Zpos d) ltac:(lia)) as Hr2. nia.
Qed.

(** ** Shaping is all or nothing *)

(** X18: the result list is shaped as a whole or not at all. It is shaped
    exactly when every element of the engine's output has the form the
    detail level unpacks; then there is one entry for each element, in the
    engine's order and with the engine's text. One element of another form
    fails the whole request. *)
Theorem parse_results_all_or_nothing (detail : Z) (raw : list raw_item) :
  ((∃ rs, parse_results detail raw = Ok rs) ↔ Forall (unpacks detail) raw) ∧
  (∀ rs, parse_results detail raw = Ok rs →
     length rs = length raw ∧ text <$> rs = raw_text <$> raw).
Proof.
  unfold parse_results. case_decide as Hd.
  - split.
    + split.
      * intros [rs Hrs%mapM_Ok].
        induction Hrs as [|item r raw rs Hr _ IH]; constructor; [| done].
        apply simple_result_Ok in Hr as (-> & _). done.
      * intros Hraw. induction Hraw as [|item raw Hitem _ [rs IH]].
        -- by exists [].
        -- destruct item as [t|b t c]; [| by destruct Hitem].
           exists (mkOcrResult [] t 0%Qc :: rs).
           apply mapM_Ok. constructor; [done | by apply mapM_Ok].
    + intros rs Hrs%mapM_Ok.
      induction Hrs as [|item r raw rs Hr _ [IH1 IH2]]; [done |].
      apply simple_result_Ok in Hr as (-> & _). cbn. by rewrite IH1, IH2.
  - split.
    + split.
      * intros [rs Hrs%mapM_Ok].
        induction Hrs as [|item r raw rs Hr _ IH]; constructor; [| done].
        apply detailed_result_Ok in Hr as (b & -> & Hb & _). done.
      * intros Hraw. induction Hraw as [|item raw Hitem _ [rs IH]].
        -- by exists [].
        -- destruct item as [t|b t c]; [done |]. destruct Hitem as [_ Hb].
           exists (mkOcrResult ((λ p : list Qc, py_int <$> p) <$> b) t c :: rs).
           apply mapM_Ok. constructor; [| by apply mapM_Ok].
           apply detailed_result_Ok. by exists b.
    + intros rs Hrs%mapM_Ok.
      induction Hrs as [|item r raw rs Hr _ [IH1 IH2]]; [done |].
      apply detailed_result_Ok in Hr as (b & -> & _). cbn. by rewrite IH1, IH2.
Qed.

(** ** The bridge *)

Lemma split_comma_length (s : string) :
  length (split_comma s) = S (count_commas s).
Proof.
  induction s as [|c s IH]; [done |]. cbn [split_comma count_commas].
  case_decide.
  - cbn. by rewrite IH.
  - destruct (split_comma s); cbn in *; lia.
Qed.

(** X19: the bridge never asks the engine for no language at all. Whatever
    [--languages] holds, the list handed to the constructor has one code
    more than the argument has commas; the empty argument gives one empty
    code. *)
Theorem bridge_always_names_a_language (strip : string → string) (arg : string) :
  parse_languages strip arg ≠ [] ∧
  length (parse_languages strip arg) = S (count_commas arg) ∧
  parse_languages strip EmptyString = [strip EmptyString].
Proof.
  unfold parse_languages. split; [| split; [| done]].
  - pose proof (split_comma_not_nil arg). by destruct (split_comma arg).
  - by rewrite length_fmap, split_comma_length.
Qed.

Section bridge_run.
Context `{E : Env}.
Variable strip : string → string.
Variable readtext_path : Reader → string → Z → result (list raw_item).

(** X20: a run of the bridge ends in one of two ways. With status 0 it has
    printed exactly one document on the standard output and nothing on the
    error stream, and the document is the shaping of what the engine read
    with the reader built for the parsed languages. With status 1 it has
    printed nothing on the standard output and one object with the single
    key [error] on the error stream. *)
Theorem main_exit_contract args r :
  main strip readtext_path args = Ok r →
  (exit_code r = 0 ∧ stderr r = [] ∧
   ∃ results doc,
     Reader_init (parse_languages strip (Namespace.languages args))
       (Namespace.gpu args) 0 = None ∧
     readtext_path
       (mkReader 0 (parse_languages strip (Namespace.languages args))
          (Namespace.gpu args))
       (Namespace.image args) (Namespace.detail args) = Ok results ∧
     bridge_output (Namespace.detail args) results = Ok doc ∧
     stdout r = [doc])
  ∨
  (exit_code r = 1 ∧ stdout r = [] ∧
   ∃ msg, stderr r = [JObject [("error"%string, JString msg)]]).
Proof.
  unfold main, mbind, result_bind.
  destruct (Reader_init _ _ 0) as [e|] eqn:Hinit.
  - destruct (is_Exception e); [| done]. intros [= <-]. right. eauto.
  - destruct (readtext_path _ _ _) as [results|e] eqn:Hread.
    + destruct (bridge_output _ results) as [doc|e] eqn:Hout.
      * intros [= <-]. left. cbn. eauto 10.
      * destruct (is_Exception e); [| done]. intros [= <-]. right. eauto.
    + destruct (is_Exception e); [| done]. intros [= <-]. right. eauto.
Qed.

End bridge_run.

Lemma main_exit_contract_witness :
  main (E:=stub) id stub_readtext_path
    (Namespace.mk "en, fr" "missing.png" true 1) =
    Ok (mkRun 1 [] [JObject [("error", JString "file not found")]]) ∧
  ∃ msg, stderr (mkRun 1 [] [JObject [("error", JString "file not found")]]) =
           [JObject [("error"%string, JString msg)]].
Proof.
  assert (Hrun : main (E:=stub) id stub_readtext_path
            (Namespace.mk "en, fr" "missing.png" true 1) =
            Ok (mkRun 1 [] [JObject [("error", JString "file not found")]]))
    by reflexivity.
  split; [exact Hrun |].
  destruct (main_exit_contract (E:=stub) id stub_readtext_path _ _ Hrun)
    as [(H0 & _) | (_ & _ & Hmsg)]; [discriminate H0 | exact Hmsg].
Defined.

Lemma info_needs_torch_witness :
  (handle (E:=stub_no_torch) GET_info (at_ms 1) initial_world).1 =
    Raise (Exception "No module named torch") ∧
  failed_requests
    (STATS (handle (E:=stub_no_torch) GET_info (at_ms 1) initial_world).2) =
    failed_requests (STATS initial_world) + 1.
Proof.
  destruct (proj1 (info_needs_torch (E:=stub_no_torch) (at_ms 1) initial_world)
              "No module named torch" eq_refl) as (Hraise & Hfailed & _).
  split; [exact Hraise | exact Hfailed].
Defined.

Lemma py_int_truncates_witness :
  (Qc_of_Z (py_int (Q2Qc (7 # 2))) ≤ Q2Qc (7 # 2))%Qc ∧
  (Q2Qc (7 # 2) < Qc_of_Z (py_int (Q2Qc (7 # 2)) + 1))%Qc.
Proof.
  apply (py_int_truncates (Q2Qc (7 # 2))). by apply Qcle_alt.
Defined.

(** ** The embedding on known values *)

(** 23 successes out of 160: [23 / 160 * 100] is a double just below 14.375,
    and [round(_, 2)] gives 14.37. *)
Example success_rate_23_of_160 :
  py_round2 (float_percent 23 160) = to_double (Q2Qc (1437 # 100)).
Proof. apply Qc_is_canon. vm_compute. reflexivity. Qed.

(** The window [[1.0, 1.01]]: its mean is a double just below 1.005, and
    [round(_, 2)] gives 1.0. *)
Example average_of_1_and_1_01 :
  py_round2 (float_mean (E:=stub) [Qc_of_Z 1; to_double (Q2Qc (101 # 100))]) =
    Qc_of_Z 1.
Proof. apply Qc_is_canon. vm_compute. reflexivity. Qed.

(** The double nearest to one tenth. *)
Example one_tenth :
  to_double (Q2Qc (1 # 10)) =
    Q2Qc (3602879701896397 # 36028797018963968).
Proof. apply Qc_is_canon. vm_compute. reflexivity. Qed.

(** Warmups for French, then for English: the listings name them in that
    order, the order of insertion. *)
Example keys_in_insertion_order :
  cache_keys (serve (E:=polyglot)
    [(POST_warmup ["fr"] true, at_ms 1); (POST_warmup ["en"] true, at_ms 1)]
    initial_world) = ["fr"; "en"].
Proof. reflexivity. Qed.
